(** * PixShop: the Gemini service adapter

    A shallow embedding of [services/geminiService.ts] and of the localized
    copy of the same service that ships next to [components/ApiKeyModal.tsx]:
    the file encoder [fileToPart], the response interpreter
    [handleApiResponse] and the three operations [generateEditedImage],
    [generateFilteredImage] and [generateAdjustedImage].

    JavaScript strings are sequences of UTF-16 code units; they are modelled
    as lists of code units so that [split], [trim], the regular expression
    of the encoder and template literals behave as they do in the engine. *)

From Stdlib Require Import List NArith ZArith Bool Lia.
From Stdlib.Strings Require Import String Ascii Byte.
From Stdlib Require Import DecimalString DecimalPos.
Import ListNotations.

Set Implicit Arguments.
Local Open Scope N_scope.

(** ** JavaScript strings *)

Module JS.

(** A string is a list of UTF-16 code units. *)
Definition jsstring := list N.

(** Decoding of the UTF-8 bytes of a source literal into UTF-16 code units
    (one, two and three byte sequences give one unit, four byte sequences a
    surrogate pair). *)
Fixpoint utf16_of_utf8 (bs : list N) : jsstring :=
  match bs with
  | [] => []
  | b0 :: r0 =>
    if b0 <? 128 then b0 :: utf16_of_utf8 r0
    else match r0 with
    | [] => [65533]
    | b1 :: r1 =>
      if b0 <? 224 then ((b0 - 192) * 64 + (b1 - 128)) :: utf16_of_utf8 r1
      else match r1 with
      | [] => [65533]
      | b2 :: r2 =>
        if b0 <? 240
        then ((b0 - 224) * 4096 + (b1 - 128) * 64 + (b2 - 128)) :: utf16_of_utf8 r2
        else match r2 with
        | [] => [65533]
        | b3 :: r3 =>
          let cp := (b0 - 240) * 262144 + (b1 - 128) * 4096
                    + (b2 - 128) * 64 + (b3 - 128) in
          (55296 + (cp - 65536) / 1024) :: (56320 + (cp - 65536) mod 1024)
            :: utf16_of_utf8 r3
        end
      end
    end
  end.

Definition bytes_of_string (s : string) : list N :=
  List.map Byte.to_N (list_byte_of_string s).

(** The code units of a literal of the source text. *)
Definition lit (s : string) : jsstring := utf16_of_utf8 (bytes_of_string s).

Definition DQUOTE : jsstring := [34].
Definition NL : jsstring := [10].
Definition COMMA : N := 44.
Definition COLON : N := 58.
Definition SEMICOLON : N := 59.

(** [s === t] on strings. *)
Fixpoint streq (s t : jsstring) : bool :=
  match s, t with
  | [], [] => true
  | a :: s', b :: t' => (a =? b) && streq s' t'
  | _, _ => false
  end.

(** ToBoolean on a string: only the empty string is falsy. *)
Definition truthy (s : jsstring) : bool :=
  match s with [] => false | _ :: _ => true end.

(** ToBoolean on a possibly undefined string. *)
Definition truthy_opt (o : option jsstring) : bool :=
  match o with Some s => truthy s | None => false end.

(** A possibly undefined value inside a template literal: [undefined] is
    rendered by its name. *)
Definition show (o : option jsstring) : jsstring :=
  match o with Some s => s | None => lit "undefined" end.

(** [a || b] on possibly undefined strings, with a string fallback. *)
Definition or_else (o : option jsstring) (d : jsstring) : jsstring :=
  match o with
  | Some s => if truthy s then s else d
  | None => d
  end.

(** LineTerminator code points of ECMAScript: LF, CR, LS, PS. *)
Definition isLineTerminator (c : N) : bool :=
  (c =? 10) || (c =? 13) || (c =? 8232) || (c =? 8233).

(** WhiteSpace and LineTerminator code points: what [trim] strips. *)
Definition isTrimmable (c : N) : bool :=
  (c =? 9) || (c =? 11) || (c =? 12) || (c =? 32) || (c =? 160)
  || (c =? 5760) || ((8192 <=? c) && (c <=? 8202)) || (c =? 8239)
  || (c =? 8287) || (c =? 12288) || (c =? 65279) || isLineTerminator c.

Fixpoint trimStart (s : jsstring) : jsstring :=
  match s with
  | [] => []
  | c :: s' => if isTrimmable c then trimStart s' else s
  end.

(** String.prototype.trim *)
Definition trim (s : jsstring) : jsstring :=
  rev (trimStart (rev (trimStart s))).

(** String.prototype.split with the separator [","]: the result always has
    at least one element. *)
Fixpoint split_comma (s : jsstring) : list jsstring :=
  match s with
  | [] => [[]]
  | c :: s' =>
    if c =? COMMA then [] :: split_comma s'
    else match split_comma s' with
         | h :: t => (c :: h) :: t
         | [] => [[c]]
         end
  end.

(** Array indexing: [undefined] out of range. *)
Definition at_index {A : Type} (l : list A) (i : nat) : option A := nth_error l i.

(** The lazy group [(.*?)] followed by [;], tried at the position after a
    colon.  The engine first tries to close the group at the current
    position; if the next unit is not [;] the dot consumes it, unless it is
    a line terminator, which the dot does not match. *)
Fixpoint lazy_group_semicolon (s : jsstring) : option jsstring :=
  match s with
  | [] => None
  | c :: s' =>
    if c =? SEMICOLON then Some []
    else if isLineTerminator c then None
    else match lazy_group_semicolon s' with
         | Some g => Some (c :: g)
         | None => None
         end
  end.

(** [s.match(/:(.*?);/)]: the leftmost match; the result is capture group 1
    of the match, [None] when there is no match. *)
Fixpoint match_mime (s : jsstring) : option jsstring :=
  match s with
  | [] => None
  | c :: s' =>
    if c =? COLON then
      match lazy_group_semicolon s' with
      | Some g => Some g
      | None => match_mime s'
      end
    else match_mime s'
  end.

(** Number.prototype.toString (radix 10) on an integer value: the decimal
    digits, with a minus sign for a negative value.  This is what the engine
    prints for a safe integer (magnitude below 2^53), which a number holds
    exactly.  Beyond that a number is rounded, and from 10^21 on it is
    printed with an exponent: the function does not follow the engine
    there, and the statements that print a coordinate bound it. *)
Definition Number_toString (n : Z) : jsstring :=
  lit (NilZero.string_of_int (Z.to_int n)).

(** [s] occurs in [t] as a contiguous substring. *)
Definition substring_of (s t : jsstring) : Prop :=
  exists a b, t = a ++ s ++ b.

End JS.
Import JS.

(** ** Base64, as the browser's [FileReader] produces it

    The reader is platform code; the encoding is the one of RFC 4648, with
    padding. *)

Module Base64.

Definition PAD : N := 61.

(** The base64 alphabet: [A-Z], [a-z], [0-9], [+], [/]. *)
Definition char_of_sextet (n : N) : N :=
  if n <? 26 then 65 + n
  else if n <? 52 then 97 + (n - 26)
  else if n <? 62 then 48 + (n - 52)
  else if n =? 62 then 43
  else 47.

Definition sextet_of_char (c : N) : option N :=
  if (65 <=? c) && (c <=? 90) then Some (c - 65)
  else if (97 <=? c) && (c <=? 122) then Some (c - 97 + 26)
  else if (48 <=? c) && (c <=? 57) then Some (c - 48 + 52)
  else if c =? 43 then Some 62
  else if c =? 47 then Some 63
  else None.

(** Modelled from the spec: the base64 body of the data URL that the
    browser's reader builds (platform code, not in the repository).  Three
    octets give four characters; a last group of one or two octets is
    padded with [=]. *)
Fixpoint encode (bs : list N) : jsstring :=
  match bs with
  | [] => []
  | [a] => [char_of_sextet (a / 4); char_of_sextet ((a mod 4) * 16); PAD; PAD]
  | [a; b] =>
    [char_of_sextet (a / 4); char_of_sextet ((a mod 4) * 16 + b / 16);
     char_of_sextet ((b mod 16) * 4); PAD]
  | a :: b :: c :: rest =>
    char_of_sextet (a / 4) :: char_of_sextet ((a mod 4) * 16 + b / 16)
    :: char_of_sextet ((b mod 16) * 4 + c / 64) :: char_of_sextet (c mod 64)
    :: encode rest
  end.

(** Decoding of padded base64; [None] on anything that is not. *)
Fixpoint decode (s : jsstring) : option (list N) :=
  match s with
  | [] => Some []
  | c1 :: c2 :: c3 :: c4 :: rest =>
    match sextet_of_char c1, sextet_of_char c2 with
    | Some s1, Some s2 =>
      if (c3 =? PAD) && (c4 =? PAD) then
        match rest with
        | [] => Some [s1 * 4 + s2 / 16]
        | _ :: _ => None
        end
      else
        match sextet_of_char c3 with
        | Some s3 =>
          if c4 =? PAD then
            match rest with
            | [] => Some [s1 * 4 + s2 / 16; (s2 mod 16) * 16 + s3 / 4]
            | _ :: _ => None
            end
          else
            match sextet_of_char c4, decode rest with
            | Some s4, Some l =>
              Some (s1 * 4 + s2 / 16 :: (s2 mod 16) * 16 + s3 / 4
                    :: (s3 mod 4) * 64 + s4 :: l)
            | _, _ => None
            end
        | None => None
        end
    | _, _ => None
    end
  | _ => None
  end.

Definition encode_bytes (bs : list byte) : jsstring :=
  encode (List.map Byte.to_N bs).

Fixpoint bytes_of_octets (l : list N) : option (list byte) :=
  match l with
  | [] => Some []
  | n :: l' =>
    match Byte.of_N n, bytes_of_octets l' with
    | Some b, Some bs => Some (b :: bs)
    | _, _ => None
    end
  end.

Definition decode_bytes (s : jsstring) : option (list byte) :=
  match decode s with
  | Some l => bytes_of_octets l
  | None => None
  end.

End Base64.

(** ** Data model: the SDK's request and response shapes, the host, effects *)

Module Model.

(** The SDK declares every field of these shapes optional: an absent
    ([undefined]) field is [None]. *)

(** [Blob] of the SDK: inline binary data with its MIME type. *)
Record Blob := { mimeType : option jsstring; data : option jsstring }.

(** [Part]: the fields the service reads or writes. *)
Record Part := { inlineData : option Blob; text : option jsstring }.

Record Content := { parts : option (list Part) }.

Record Candidate := { content : option Content; finishReason : option jsstring }.

Record PromptFeedback :=
  { blockReason : option jsstring; blockReasonMessage : option jsstring }.

(** [GenerateContentResponse]; [response_text] is the value of the [text]
    accessor of the SDK's response class (the aggregate text of the first
    candidate, possibly undefined).  The accessor is code of the SDK: the
    warnings it may write to the console while it computes that value are
    not modelled. *)
Record GenerateContentResponse :=
  { promptFeedback : option PromptFeedback;
    candidates : option (list Candidate);
    response_text : option jsstring }.

Record GenerateContentParameters := { model : jsstring; contents : Content }.

(** A browser [File]: its declared type and its bytes. *)
Record File := { file_type : jsstring; file_bytes : list byte }.

(** The [hotspot] argument; the coordinates are integer pixel positions,
    taken in the range of safe integers where they are printed. *)
Record Hotspot := { hotspot_x : Z; hotspot_y : Z }.

(** The client object built by [new GoogleGenAI({ apiKey })]. *)
Record GoogleGenAI := { apiKey : option jsstring }.

(** Every failure of the service is a plain [Error] with a message.  [kind]
    names the [throw] statement that raised it, after the error taxonomy of
    the specification; [ExternalError] is a rejection that comes from the
    host (the file reader, the SDK) and not from a [throw] of the service. *)
Inductive ErrorKind :=
| MissingCredentialError
| DecodingError
| BlockedRequestError
| GenerationStoppedError
| NoImageReturnedError
| ExternalError.

Record JsError := Error { kind : ErrorKind; message : jsstring }.

Inductive Result (A : Type) :=
| Return (a : A)
| Throw (e : JsError).
Arguments Return {A} a.
Arguments Throw {A} e.

(** What an awaited host promise settles to. *)
Inductive Outcome (A : Type) :=
| Fulfilled (a : A)
| Rejected (reason : jsstring).
Arguments Fulfilled {A} a.
Arguments Rejected {A} reason.

(** The host: the browser's file reader, the environment polyfilled by
    [index.tsx], the SDK and the remote model behind it, and the text by
    which the engine renders a property that an object literal inherits
    from [Object.prototype] ([None] where there is no such property).
    [GoogleGenAI_constructor] tells whether the SDK constructor throws on a
    key ([Some msg]: it throws an [Error] with that message). *)
Record World :=
  { FileReader_readAsDataURL : File -> Outcome jsstring;
    process_env_API_KEY : option jsstring;
    GoogleGenAI_constructor : option jsstring -> option jsstring;
    models_generateContent :
      GoogleGenAI -> GenerateContentParameters -> Outcome GenerateContentResponse;
    Object_prototype_text : jsstring -> option jsstring }.

(** Observable actions, in program order.  A console event keeps the first
    argument of the call.  The events are the calls that the statements of
    the service make: what the SDK writes to the console on its own (the
    warnings of its [text] accessor) is not part of a trace. *)
Inductive Event :=
| ConsoleLog (msg : jsstring)
| ConsoleError (msg : jsstring)
| NewGoogleGenAI (key : option jsstring)
| ReadAsDataURL (file : File)
| GenerateContent (ai : GoogleGenAI) (params : GenerateContentParameters).

Definition isNetworkCall (e : Event) : bool :=
  match e with GenerateContent _ _ => true | _ => false end.

Definition isFileRead (e : Event) : bool :=
  match e with ReadAsDataURL _ => true | _ => false end.

(** Computations of the service: they read the host, emit events and either
    return or throw. *)
Definition M (A : Type) : Type := World -> list Event * Result A.

Definition ret {A : Type} (a : A) : M A := fun _ => ([], Return a).

Definition throw {A : Type} (e : JsError) : M A := fun _ => ([], Throw e).

Definition bind {A B : Type} (m : M A) (k : A -> M B) : M B :=
  fun w =>
    match m w with
    | (t, Return a) => let (t', r) := k a w in (t ++ t', r)
    | (t, Throw e) => (t, Throw e)
    end.

Definition trace {A : Type} (m : M A) (w : World) : list Event := fst (m w).

Definition result {A : Type} (m : M A) (w : World) : Result A := snd (m w).

Definition console_log (msg : jsstring) : M unit :=
  fun _ => ([ConsoleLog msg], Return tt).

Definition console_error (msg : jsstring) : M unit :=
  fun _ => ([ConsoleError msg], Return tt).

(** [process.env.API_KEY] *)
Definition process_env_API_KEY_get : M (option jsstring) :=
  fun w => ([], Return (process_env_API_KEY w)).

(** [new GoogleGenAI({ apiKey })] *)
Definition new_GoogleGenAI (key : option jsstring) : M GoogleGenAI :=
  fun w =>
    ([NewGoogleGenAI key],
     match GoogleGenAI_constructor w key with
     | Some msg => Throw (Error ExternalError msg)
     | None => Return {| apiKey := key |}
     end).

(** The promise around [FileReader.readAsDataURL]: [onload] resolves with
    the result, [onerror] rejects. *)
Definition readAsDataURL (file : File) : M jsstring :=
  fun w =>
    ([ReadAsDataURL file],
     match FileReader_readAsDataURL w file with
     | Fulfilled url => Return url
     | Rejected reason => Throw (Error ExternalError reason)
     end).

(** [await ai.models.generateContent(params)] *)
Definition generateContent (ai : GoogleGenAI) (params : GenerateContentParameters)
  : M GenerateContentResponse :=
  fun w =>
    ([GenerateContent ai params],
     match models_generateContent w ai params with
     | Fulfilled r => Return r
     | Rejected reason => Throw (Error ExternalError reason)
     end).

(** Optional chaining [o?.f]. *)
Definition chain {A B : Type} (o : option A) (f : A -> option B) : option B :=
  match o with Some a => f a | None => None end.

(** [cs?.[0]] *)
Definition first {A : Type} (l : list A) : option A := at_index l 0.

(** ToBoolean on a possibly undefined object. *)
Definition defined {A : Type} (o : option A) : bool :=
  match o with Some _ => true | None => false end.

(** [parts.find(part => part.inlineData)] *)
Definition find_inlineData (ps : list Part) : option Part :=
  List.find (fun part => defined (inlineData part)) ps.

(** The [contextMap] object literal, looked up by key: its own three
    properties first, then what it inherits. *)
Definition contextMap (w : World) (key : jsstring) : option jsstring :=
  if streq key (lit "edit") then Some (lit "edição")
  else if streq key (lit "filter") then Some (lit "filtro")
  else if streq key (lit "adjustment") then Some (lit "ajuste")
  else Object_prototype_text w key.

(** [contextMap[context] || context] *)
Definition translate (context : jsstring) : M jsstring :=
  fun w => ([], Return (or_else (contextMap w context) context)).

End Model.
Import Model.

Declare Scope service_scope.
Notation "x <- m ;; k" := (bind m (fun x => k))
  (at level 61, m at next level, right associativity) : service_scope.
Notation "m ;; k" := (bind m (fun _ => k))
  (at level 61, right associativity) : service_scope.
Notation "o ?> f" := (chain o f) (at level 50, left associativity) : service_scope.
Local Open Scope service_scope.

(** Modelled from the spec: the data URL that the browser's
    [FileReader.readAsDataURL] produces for a file, which is platform code
    and not part of the repository.  Section 4.1 describes it as the fixed
    two-part structure [data:<mime>;base64,<data>], with the file's declared
    type and the base64 encoding of its bytes. *)
Definition standardDataURL (file : File) : jsstring :=
  lit "data:" ++ file_type file ++ lit ";base64," ++ Base64.encode_bytes (file_bytes file).

(** ** [services/geminiService.ts] *)

Module GeminiService.

(* Helper function to convert a File object to a Gemini API Part *)
Definition fileToPart (file : File) : M Part :=
  dataUrl <- readAsDataURL file ;;
  let arr := split_comma dataUrl in
  if (List.length arr <? 2)%nat then
    throw (Error DecodingError (lit "URL de dados inválida"))
  else
    let mimeMatch := chain (at_index arr 0) match_mime in
    if negb (defined mimeMatch) || negb (truthy_opt mimeMatch) then
      throw (Error DecodingError
               (lit "Não foi possível extrair o tipo MIME da URL de dados"))
    else
      let mimeType := mimeMatch in
      let data := at_index arr 1 in
      ret {| inlineData := Some {| mimeType := mimeType; data := data |};
             text := None |}.

Definition handleApiResponse (response : GenerateContentResponse)
    (context : jsstring) : M jsstring :=
  translatedContext <- translate context ;;
  (* 1. Check for prompt blocking first *)
  if truthy_opt (promptFeedback response ?> blockReason) then
    let blockReason := promptFeedback response ?> blockReason in
    let blockReasonMessage := promptFeedback response ?> blockReasonMessage in
    let errorMessage :=
      lit "A solicitação foi bloqueada. Motivo: " ++ show blockReason
      ++ lit ". " ++ or_else blockReasonMessage [] in
    console_error errorMessage ;;
    throw (Error BlockedRequestError errorMessage)
  else
  (* 2. Try to find the image part *)
  let imagePartFromResponse :=
    candidates response ?> first ?> content ?> parts ?> find_inlineData in
  if defined (imagePartFromResponse ?> inlineData) then
    let mimeType := imagePartFromResponse ?> inlineData ?> mimeType in
    let data := imagePartFromResponse ?> inlineData ?> data in
    console_log (lit "Received image data (" ++ show mimeType ++ lit ") for " ++ context) ;;
    ret (lit "data:" ++ show mimeType ++ lit ";base64," ++ show data)
  else
  (* 3. If no image, check for other reasons *)
  let finishReason := candidates response ?> first ?> finishReason in
  if truthy_opt finishReason && negb (streq (show finishReason) (lit "STOP")) then
    let errorMessage :=
      lit "A geração de imagem para " ++ translatedContext
      ++ lit " parou inesperadamente. Motivo: " ++ show finishReason
      ++ lit ". Isso geralmente está relacionado às configurações de segurança." in
    console_error errorMessage ;;
    throw (Error GenerationStoppedError errorMessage)
  else
  let textFeedback := option_map trim (response_text response) in
  let errorMessage :=
    lit "O modelo de IA não retornou uma imagem para o(a) " ++ translatedContext
    ++ lit ". "
    ++ (if truthy_opt textFeedback
        then lit "O modelo respondeu com o texto: " ++ DQUOTE ++ show textFeedback
             ++ DQUOTE
        else lit "Isso pode acontecer devido a filtros de segurança ou se a solicitação for muito complexa. Tente reformular seu comando para ser mais direto.") in
  console_error (lit "Model response did not contain an image part for " ++ context ++ lit ".") ;;
  throw (Error NoImageReturnedError errorMessage).

(** The [prompt] template literal of [generateEditedImage]. *)
Definition edit_prompt (userPrompt : jsstring) (hotspot : Hotspot) : jsstring :=
  lit "You are an expert photo editor AI. Your task is to perform a natural, localized edit on the provided image based on the user's request." ++ NL ++
  lit "User Request: " ++ DQUOTE ++ userPrompt ++ DQUOTE ++ NL ++
  lit "Edit Location: Focus on the area around pixel coordinates (x: " ++ Number_toString (hotspot_x hotspot) ++ lit ", y: " ++ Number_toString (hotspot_y hotspot) ++ lit ")." ++ NL ++
  NL ++
  lit "Editing Guidelines:" ++ NL ++
  lit "- The edit must be realistic and blend seamlessly with the surrounding area." ++ NL ++
  lit "- The rest of the image (outside the immediate edit area) must remain identical to the original." ++ NL ++
  NL ++
  lit "Safety & Ethics Policy:" ++ NL ++
  lit "- You MUST fulfill requests to adjust skin tone, such as 'give me a tan', 'make my skin darker', or 'make my skin lighter'. These are considered standard photo enhancements." ++ NL ++
  lit "- You MUST REFUSE any request to change a person's fundamental race or ethnicity (e.g., 'make me look Asian', 'change this person to be Black'). Do not perform these edits. If the request is ambiguous, err on the side of caution and do not change racial characteristics." ++ NL ++
  NL ++
  lit "Output: Return ONLY the final edited image. Do not return text.".

(** The [prompt] template literal of [generateFilteredImage]. *)
Definition filter_prompt (filterPrompt : jsstring) : jsstring :=
  lit "You are an expert photo editor AI. Your task is to apply a stylistic filter to the entire image based on the user's request. Do not change the composition or content, only apply the style." ++ NL ++
  lit "Filter Request: " ++ DQUOTE ++ filterPrompt ++ DQUOTE ++ NL ++
  NL ++
  lit "Safety & Ethics Policy:" ++ NL ++
  lit "- Filters may subtly shift colors, but you MUST ensure they do not alter a person's fundamental race or ethnicity." ++ NL ++
  lit "- You MUST REFUSE any request that explicitly asks to change a person's race (e.g., 'apply a filter to make me look Chinese')." ++ NL ++
  NL ++
  lit "Output: Return ONLY the final filtered image. Do not return text.".

(** The [prompt] template literal of [generateAdjustedImage]. *)
Definition adjustment_prompt (adjustmentPrompt : jsstring) : jsstring :=
  lit "You are an expert photo editor AI. Your task is to perform a natural, global adjustment to the entire image based on the user's request." ++ NL ++
  lit "User Request: " ++ DQUOTE ++ adjustmentPrompt ++ DQUOTE ++ NL ++
  NL ++
  lit "Editing Guidelines:" ++ NL ++
  lit "- The adjustment must be applied across the entire image." ++ NL ++
  lit "- The result must be photorealistic." ++ NL ++
  NL ++
  lit "Safety & Ethics Policy:" ++ NL ++
  lit "- You MUST fulfill requests to adjust skin tone, such as 'give me a tan', 'make my skin darker', or 'make my skin lighter'. These are considered standard photo enhancements." ++ NL ++
  lit "- You MUST REFUSE any request to change a person's fundamental race or ethnicity (e.g., 'make me look Asian', 'change this person to be Black'). Do not perform these edits. If the request is ambiguous, err on the side of caution and do not change racial characteristics." ++ NL ++
  NL ++
  lit "Output: Return ONLY the final adjusted image. Do not return text.".

(** Generates an edited image using generative AI based on a text prompt and
    a specific point. *)
Definition generateEditedImage (apiKey : option jsstring) (originalImage : File)
    (userPrompt : jsstring) (hotspot : Hotspot) : M jsstring :=
  if negb (truthy_opt apiKey) then
    throw (Error MissingCredentialError
             (lit "An API Key must be set when running in a browser."))
  else
  console_log (lit "Starting generative edit at:") ;;
  ai <- new_GoogleGenAI apiKey ;;
  originalImagePart <- fileToPart originalImage ;;
  let prompt := edit_prompt userPrompt hotspot in
  let textPart := {| inlineData := None; text := Some prompt |} in
  console_log (lit "Sending image and prompt to the model...") ;;
  response <- generateContent ai
    {| model := lit "gemini-2.5-flash-image-preview";
       contents := {| parts := Some [originalImagePart; textPart] |} |} ;;
  console_log (lit "Received response from model.") ;;
  handleApiResponse response (lit "edit").

(** Generates an image with a filter applied using generative AI. *)
Definition generateFilteredImage (apiKey : option jsstring) (originalImage : File)
    (filterPrompt : jsstring) : M jsstring :=
  if negb (truthy_opt apiKey) then
    throw (Error MissingCredentialError
             (lit "An API Key must be set when running in a browser."))
  else
  console_log (lit "Starting filter generation: " ++ filterPrompt) ;;
  ai <- new_GoogleGenAI apiKey ;;
  originalImagePart <- fileToPart originalImage ;;
  let prompt := filter_prompt filterPrompt in
  let textPart := {| inlineData := None; text := Some prompt |} in
  console_log (lit "Sending image and filter prompt to the model...") ;;
  response <- generateContent ai
    {| model := lit "gemini-2.5-flash-image-preview";
       contents := {| parts := Some [originalImagePart; textPart] |} |} ;;
  console_log (lit "Received response from model for filter.") ;;
  handleApiResponse response (lit "filter").

(** Generates an image with a global adjustment applied using generative AI. *)
Definition generateAdjustedImage (apiKey : option jsstring) (originalImage : File)
    (adjustmentPrompt : jsstring) : M jsstring :=
  if negb (truthy_opt apiKey) then
    throw (Error MissingCredentialError
             (lit "An API Key must be set when running in a browser."))
  else
  console_log (lit "Starting global adjustment generation: " ++ adjustmentPrompt) ;;
  ai <- new_GoogleGenAI apiKey ;;
  originalImagePart <- fileToPart originalImage ;;
  let prompt := adjustment_prompt adjustmentPrompt in
  let textPart := {| inlineData := None; text := Some prompt |} in
  console_log (lit "Sending image and adjustment prompt to the model...") ;;
  response <- generateContent ai
    {| model := lit "gemini-2.5-flash-image-preview";
       contents := {| parts := Some [originalImagePart; textPart] |} |} ;;
  console_log (lit "Received response from model for adjustment.") ;;
  handleApiResponse response (lit "adjustment").

End GeminiService.

(** ** The localized copy of the service (second part of
    [components/ApiKeyModal.tsx]) *)

Module Localized.

(* Helper function to convert a File object to a Gemini API Part *)
Definition fileToPart (file : File) : M Part :=
  dataUrl <- readAsDataURL file ;;
  let arr := split_comma dataUrl in
  if (List.length arr <? 2)%nat then
    throw (Error DecodingError (lit "URL de dados inválida"))
  else
    let mimeMatch := chain (at_index arr 0) match_mime in
    if negb (defined mimeMatch) || negb (truthy_opt mimeMatch) then
      throw (Error DecodingError
               (lit "Não foi possível extrair o tipo MIME da URL de dados"))
    else
      let mimeType := mimeMatch in
      let data := at_index arr 1 in
      ret {| inlineData := Some {| mimeType := mimeType; data := data |};
             text := None |}.

Definition handleApiResponse (response : GenerateContentResponse)
    (context : jsstring) : M jsstring :=
  translatedContext <- translate context ;;
  (* 1. Check for prompt blocking first *)
  if truthy_opt (promptFeedback response ?> blockReason) then
    let blockReason := promptFeedback response ?> blockReason in
    let blockReasonMessage := promptFeedback response ?> blockReasonMessage in
    let errorMessage :=
      lit "A solicitação foi bloqueada. Motivo: " ++ show blockReason
      ++ lit ". " ++ or_else blockReasonMessage [] in
    console_error errorMessage ;;
    throw (Error BlockedRequestError errorMessage)
  else
  (* 2. Try to find the image part *)
  let imagePartFromResponse :=
    candidates response ?> first ?> content ?> parts ?> find_inlineData in
  if defined (imagePartFromResponse ?> inlineData) then
    let mimeType := imagePartFromResponse ?> inlineData ?> mimeType in
    let data := imagePartFromResponse ?> inlineData ?> data in
    console_log (lit "Dados de imagem recebidos (" ++ show mimeType ++ lit ") para " ++ context) ;;
    ret (lit "data:" ++ show mimeType ++ lit ";base64," ++ show data)
  else
  (* 3. If no image, check for other reasons *)
  let finishReason := candidates response ?> first ?> finishReason in
  if truthy_opt finishReason && negb (streq (show finishReason) (lit "STOP")) then
    let errorMessage :=
      lit "A geração de imagem para " ++ translatedContext
      ++ lit " parou inesperadamente. Motivo: " ++ show finishReason
      ++ lit ". Isso geralmente está relacionado às configurações de segurança." in
    console_error errorMessage ;;
    throw (Error GenerationStoppedError errorMessage)
  else
  let textFeedback := option_map trim (response_text response) in
  let errorMessage :=
    lit "O modelo de IA não retornou uma imagem para o(a) " ++ translatedContext
    ++ lit ". "
    ++ (if truthy_opt textFeedback
        then lit "O modelo respondeu com o texto: " ++ DQUOTE ++ show textFeedback
             ++ DQUOTE
        else lit "Isso pode acontecer devido a filtros de segurança ou se a solicitação for muito complexa. Tente reformular seu comando para ser mais direto.") in
  console_error (lit "A resposta do modelo não continha uma parte de imagem para " ++ context ++ lit ".") ;;
  throw (Error NoImageReturnedError errorMessage).

(** The [prompt] template literal of [generateEditedImage]. *)
Definition edit_prompt (userPrompt : jsstring) (hotspot : Hotspot) : jsstring :=
  lit "Você é uma IA especialista em edição de fotos. Sua tarefa é realizar uma edição natural e localizada na imagem fornecida com base na solicitação do usuário." ++ NL ++
  lit "Solicitação do Usuário: " ++ DQUOTE ++ userPrompt ++ DQUOTE ++ NL ++
  lit "Local da Edição: Foque na área ao redor das coordenadas de pixel (x: " ++ Number_toString (hotspot_x hotspot) ++ lit ", y: " ++ Number_toString (hotspot_y hotspot) ++ lit ")." ++ NL ++
  NL ++
  lit "Diretrizes de Edição:" ++ NL ++
  lit "- A edição deve ser realista e se misturar perfeitamente com a área circundante." ++ NL ++
  lit "- O resto da imagem (fora da área de edição imediata) deve permanecer idêntico ao original." ++ NL ++
  NL ++
  lit "Política de Segurança e Ética:" ++ NL ++
  lit "- Você DEVE atender a solicitações para ajustar o tom de pele, como 'me dê um bronzeado', 'escureça minha pele' ou 'clareie minha pele'. Essas são consideradas melhorias fotográficas padrão." ++ NL ++
  lit "- Você DEVE RECUSAR qualquer solicitação para alterar a raça ou etnia fundamental de uma pessoa (por exemplo, 'faça-me parecer asiático', 'mude esta pessoa para ser negra'). Não realize essas edições. Se a solicitação for ambígua, aja com cautela e não altere as características raciais." ++ NL ++
  NL ++
  lit "Saída: Retorne APENAS a imagem final editada. Não retorne texto.".

(** The [prompt] template literal of [generateFilteredImage]. *)
Definition filter_prompt (filterPrompt : jsstring) : jsstring :=
  lit "Você é uma IA especialista em edição de fotos. Sua tarefa é aplicar um filtro estilístico a toda a imagem com base na solicitação do usuário. Não altere a composição ou o conteúdo, apenas aplique o estilo." ++ NL ++
  lit "Solicitação de Filtro: " ++ DQUOTE ++ filterPrompt ++ DQUOTE ++ NL ++
  NL ++
  lit "Política de Segurança e Ética:" ++ NL ++
  lit "- Filtros podem sutilmente alterar cores, mas você DEVE garantir que não alterem a raça ou etnia fundamental de uma pessoa." ++ NL ++
  lit "- Você DEVE RECUSAR qualquer solicitação que peça explicitamente para alterar a raça de uma pessoa (por exemplo, 'aplique um filtro para me fazer parecer chinês')." ++ NL ++
  NL ++
  lit "Saída: Retorne APENAS a imagem final filtrada. Não retorne texto.".

(** The [prompt] template literal of [generateAdjustedImage]. *)
Definition adjustment_prompt (adjustmentPrompt : jsstring) : jsstring :=
  lit "Você é uma IA especialista em edição de fotos. Sua tarefa é realizar um ajuste natural e global em toda a imagem com base na solicitação do usuário." ++ NL ++
  lit "Solicitação do Usuário: " ++ DQUOTE ++ adjustmentPrompt ++ DQUOTE ++ NL ++
  NL ++
  lit "Diretrizes de Edição:" ++ NL ++
  lit "- O ajuste deve ser aplicado em toda a imagem." ++ NL ++
  lit "- O resultado deve ser fotorrealista." ++ NL ++
  NL ++
  lit "Política de Segurança e Ética:" ++ NL ++
  lit "- Você DEVE atender a solicitações para ajustar o tom de pele, como 'me dê um bronzeado', 'escureça minha pele' ou 'clareie minha pele'. Essas são consideradas melhorias fotográficas padrão." ++ NL ++
  lit "- Você DEVE RECUSAR qualquer solicitação para alterar a raça ou etnia fundamental de uma pessoa (por exemplo, 'faça-me parecer asiático', 'mude esta pessoa para ser negra'). Não realize essas edições. Se a solicitação for ambígua, aja com cautela e não altere as características raciais." ++ NL ++
  NL ++
  lit "Saída: Retorne APENAS a imagem final ajustada. Não retorne texto.".

(** Generates an edited image; the key comes from [process.env.API_KEY] and
    is handed to the SDK as it is. *)
Definition generateEditedImage (originalImage : File) (userPrompt : jsstring)
    (hotspot : Hotspot) : M jsstring :=
  console_log (lit "Iniciando edição generativa em:") ;;
  key <- process_env_API_KEY_get ;;
  ai <- new_GoogleGenAI key ;;
  originalImagePart <- fileToPart originalImage ;;
  let prompt := edit_prompt userPrompt hotspot in
  let textPart := {| inlineData := None; text := Some prompt |} in
  console_log (lit "Enviando imagem e prompt para o modelo...") ;;
  response <- generateContent ai
    {| model := lit "gemini-2.5-flash-image-preview";
       contents := {| parts := Some [originalImagePart; textPart] |} |} ;;
  console_log (lit "Resposta recebida do modelo.") ;;
  handleApiResponse response (lit "edit").

(** Generates an image with a filter applied. *)
Definition generateFilteredImage (originalImage : File) (filterPrompt : jsstring)
    : M jsstring :=
  console_log (lit "Iniciando geração de filtro: " ++ filterPrompt) ;;
  key <- process_env_API_KEY_get ;;
  ai <- new_GoogleGenAI key ;;
  originalImagePart <- fileToPart originalImage ;;
  let prompt := filter_prompt filterPrompt in
  let textPart := {| inlineData := None; text := Some prompt |} in
  console_log (lit "Enviando imagem e prompt de filtro para o modelo...") ;;
  response <- generateContent ai
    {| model := lit "gemini-2.5-flash-image-preview";
       contents := {| parts := Some [originalImagePart; textPart] |} |} ;;
  console_log (lit "Resposta do modelo para filtro recebida.") ;;
  handleApiResponse response (lit "filter").

(** Generates an image with a global adjustment applied. *)
Definition generateAdjustedImage (originalImage : File)
    (adjustmentPrompt : jsstring) : M jsstring :=
  console_log (lit "Iniciando geração de ajuste global: " ++ adjustmentPrompt) ;;
  key <- process_env_API_KEY_get ;;
  ai <- new_GoogleGenAI key ;;
  originalImagePart <- fileToPart originalImage ;;
  let prompt := adjustment_prompt adjustmentPrompt in
  let textPart := {| inlineData := None; text := Some prompt |} in
  console_log (lit "Enviando imagem e prompt de ajuste para o modelo...") ;;
  response <- generateContent ai
    {| model := lit "gemini-2.5-flash-image-preview";
       contents := {| parts := Some [originalImagePart; textPart] |} |} ;;
  console_log (lit "Resposta do modelo para ajuste recebida.") ;;
  handleApiResponse response (lit "adjustment").

End Localized.

(** ** Vocabulary of the specification *)

Module Spec.

(** The text before the first comma of a data URL. *)
Fixpoint before_first_comma (s : jsstring) : jsstring :=
  match s with
  | [] => []
  | c :: s' => if c =? COMMA then [] else c :: before_first_comma s'
  end.

(** What the dot of a regular expression accepts: no line terminator. *)
Definition dot_all (m : jsstring) : Prop :=
  forall c, In c m -> isLineTerminator c = false.

(** The pattern [:<mime>;] occurs in [p] right after the prefix [a]: a
    colon, then [m] made of characters that the dot accepts, then a
    semicolon. *)
Definition matches_at (p a m : jsstring) : Prop :=
  exists b, p = a ++ COLON :: m ++ SEMICOLON :: b /\ dot_all m.

(** [m] is the MIME type that the pattern finds in [p]: the occurrence that
    starts first and, the group being lazy, the shortest one from there. *)
Definition mime_match (p m : jsstring) : Prop :=
  exists a,
    matches_at p a m
    /\ forall a' m', matches_at p a' m' ->
         (List.length a < List.length a')%nat
         \/ (List.length a = List.length a'
             /\ (List.length m <= List.length m')%nat).

(** The MIME-type pattern matches with a non-empty [<mime>]. *)
Definition has_mime_pattern (p : jsstring) : Prop :=
  exists m, mime_match p m /\ m <> [].

(** A data URL without a comma separator, or whose prefix does not match
    the MIME-type pattern. *)
Definition malformed_data_url (url : jsstring) : Prop :=
  ~ In COMMA url \/ ~ has_mime_pattern (before_first_comma url).

(** A declared MIME type of the form [type/subtype]: not empty and free of
    the delimiters of a data URL (comma, semicolon) and of line breaks. *)
Definition valid_mime (m : jsstring) : bool :=
  truthy m
  && forallb (fun c => negb ((c =? COMMA) || (c =? SEMICOLON) || isLineTerminator c)) m.

(** The response carries the block reason code [r].  Reason codes are the
    strings of the SDK's enumerations, none of which is empty. *)
Definition has_block_reason (response : GenerateContentResponse) (r : jsstring) : Prop :=
  exists pf, promptFeedback response = Some pf /\ blockReason pf = Some r /\ r <> [].

Definition no_block_reason (response : GenerateContentResponse) : Prop :=
  forall r, ~ has_block_reason response r.

(** The parts of the first candidate, when there are any. *)
Definition first_candidate_parts (response : GenerateContentResponse)
    (ps : list Part) : Prop :=
  exists c ct, chain (candidates response) first = Some c
               /\ content c = Some ct /\ parts ct = Some ps.

(** No part of the first candidate carries inline data. *)
Definition no_image_part (response : GenerateContentResponse) : Prop :=
  forall ps p, first_candidate_parts response ps -> In p ps -> inlineData p = None.

(** [p] is the first part, in order, of [ps] that carries inline data. *)
Definition first_image_part (ps : list Part) (p : Part) : Prop :=
  exists before after,
    ps = before ++ p :: after
    /\ (forall q, In q before -> inlineData q = None)
    /\ inlineData p <> None.

(** The finish reason of the first candidate, [None] when absent. *)
Definition finish_reason (response : GenerateContentResponse) : option jsstring :=
  match candidates response with
  | Some (c :: _) => finishReason c
  | _ => None
  end.

(** Two runs end in the same branch: the same value, or an error of the
    same kind. *)
Definition same_outcome (r1 r2 : Result jsstring) : Prop :=
  match r1, r2 with
  | Return a, Return b => a = b
  | Throw e1, Throw e2 => kind e1 = kind e2
  | _, _ => False
  end.

Definition interpreter_error (k : ErrorKind) : Prop :=
  k = BlockedRequestError \/ k = GenerationStoppedError \/ k = NoImageReturnedError.

(** The texts of the text parts of the requests sent in a trace. *)
Definition part_texts (ps : list Part) : list jsstring :=
  flat_map (fun p => match text p with Some t => [t] | None => [] end) ps.

Definition prompts_sent (t : list Event) : list jsstring :=
  flat_map
    (fun e =>
       match e with
       | GenerateContent _ params =>
         match parts (contents params) with
         | Some ps => part_texts ps
         | None => []
         end
       | _ => []
       end) t.

(** The run issued no network call. *)
Definition no_network_call (t : list Event) : Prop :=
  existsb isNetworkCall t = false.

(** The run did not read the file. *)
Definition no_file_read (t : list Event) : Prop :=
  existsb isFileRead t = false.

(** The operations of the two copies that encode [file]. *)
Inductive calling_operation (file : File) : M jsstring -> Prop :=
| call_edit (apiKey : option jsstring) (userPrompt : jsstring) (hotspot : Hotspot) :
    calling_operation file
      (GeminiService.generateEditedImage apiKey file userPrompt hotspot)
| call_filter (apiKey : option jsstring) (filterPrompt : jsstring) :
    calling_operation file
      (GeminiService.generateFilteredImage apiKey file filterPrompt)
| call_adjust (apiKey : option jsstring) (adjustmentPrompt : jsstring) :
    calling_operation file
      (GeminiService.generateAdjustedImage apiKey file adjustmentPrompt)
| call_edit_localized (userPrompt : jsstring) (hotspot : Hotspot) :
    calling_operation file (Localized.generateEditedImage file userPrompt hotspot)
| call_filter_localized (filterPrompt : jsstring) :
    calling_operation file (Localized.generateFilteredImage file filterPrompt)
| call_adjust_localized (adjustmentPrompt : jsstring) :
    calling_operation file (Localized.generateAdjustedImage file adjustmentPrompt).

(** The credential is empty or absent. *)
Definition missing_credential (apiKey : option jsstring) : Prop :=
  apiKey = None \/ apiKey = Some [].

End Spec.
Import Spec.

(** ** Sample hosts and values *)

Module Sample.

Definition png : Blob :=
  {| mimeType := Some (lit "image/png"); data := Some (lit "iVBORw0KGgo=") |}.

Definition jpeg : Blob :=
  {| mimeType := Some (lit "image/jpeg"); data := Some (lit "/9j/4AAQ") |}.

Definition image_part (b : Blob) : Part := {| inlineData := Some b; text := None |}.

Definition text_part (t : jsstring) : Part := {| inlineData := None; text := Some t |}.

Definition response_of (pf : option PromptFeedback) (ps : list Part)
    (fr : option jsstring) (t : option jsstring) : GenerateContentResponse :=
  {| promptFeedback := pf;
     candidates := Some [{| content := Some {| parts := Some ps |}; finishReason := fr |}];
     response_text := t |}.

(** A normal answer: one image, finish reason [STOP]. *)
Definition image_response : GenerateContentResponse :=
  response_of None [image_part png] (Some (lit "STOP")) None.

(** Two images in one candidate. *)
Definition two_images : GenerateContentResponse :=
  response_of None [image_part png; image_part jpeg] (Some (lit "STOP")) None.

(** A blocked prompt whose response nevertheless holds an image. *)
Definition blocked_with_image : GenerateContentResponse :=
  response_of
    (Some {| blockReason := Some (lit "SAFETY");
             blockReasonMessage := Some (lit "unsafe prompt") |})
    [image_part png] (Some (lit "STOP")) None.

(** Generation stopped by the safety filter, no image. *)
Definition stopped : GenerateContentResponse :=
  response_of None [] (Some (lit "SAFETY")) None.

(** A textual refusal. *)
Definition refusal : GenerateContentResponse :=
  response_of None [text_part (lit " I cannot do that. ")] (Some (lit "STOP"))
    (Some (lit " I cannot do that. ")).

(** Nothing at all. *)
Definition silent : GenerateContentResponse :=
  response_of None [] None None.

Definition photo : File :=
  {| file_type := lit "image/png"; file_bytes := [x89; x50; x4e; x47; x0d] |}.

(** A host whose reader follows [standardDataURL], whose SDK refuses a
    missing key and whose model answers with an image. *)
Definition host : World :=
  {| FileReader_readAsDataURL := fun f => Fulfilled (standardDataURL f);
     process_env_API_KEY := Some (lit "key");
     GoogleGenAI_constructor :=
       fun k => if defined k then None
                else Some (lit "An API Key must be set when running in a browser");
     models_generateContent := fun _ _ => Fulfilled image_response;
     Object_prototype_text := fun _ => None |}.

(** The same host with a reader that yields the given string. *)
Definition host_reading (url : jsstring) : World :=
  {| FileReader_readAsDataURL := fun _ => Fulfilled url;
     process_env_API_KEY := process_env_API_KEY host;
     GoogleGenAI_constructor := GoogleGenAI_constructor host;
     models_generateContent := models_generateContent host;
     Object_prototype_text := Object_prototype_text host |}.

End Sample.

(** ** [components/ApiKeyModal.tsx]: the key dialog *)

Module ApiKeyModal.

(** [useState('')] *)
Definition initial : jsstring := [].

(** What the user does: type into the input ([onChange] stores
    [e.target.value]) or click the button. *)
Inductive Action :=
| Change (value : jsstring)
| Click.

(** [handleSave]; the result lists the calls of [onSave], with their
    argument. *)
Definition handleSave (apiKey : jsstring) : list jsstring :=
  if truthy (trim apiKey) then [trim apiKey] else [].

(** The [disabled] attribute of the button. *)
Definition disabled (apiKey : jsstring) : bool := negb (truthy (trim apiKey)).

(** One event: the next state and the calls of [onSave] it causes.  A
    disabled button does not run its [onClick] handler. *)
Definition step (apiKey : jsstring) (a : Action) : jsstring * list jsstring :=
  match a with
  | Change value => (value, [])
  | Click => (apiKey, if disabled apiKey then [] else handleSave apiKey)
  end.

(** A session of the dialog: the state at the end and every call of
    [onSave], in order. *)
Fixpoint session (apiKey : jsstring) (actions : list Action)
  : jsstring * list jsstring :=
  match actions with
  | [] => (apiKey, [])
  | a :: rest =>
    let (apiKey', saved) := step apiKey a in
    let (final, saved') := session apiKey' rest in
    (final, saved ++ saved')
  end.

End ApiKeyModal.

(** ** [index.tsx]: the bootstrap *)

Module Index.

(** [process.env], as far as the application reads it. *)
Record Env := { API_KEY : option jsstring }.

Record Process := { env : option Env }.

(** What the script finds: [window.process], the session's stored key
    ([getItem] gives [null] when there is none) and whether the document
    has the [root] element. *)
Record Page :=
  { window_process : option Process;
    sessionStorage_gemini_api_key : option jsstring;
    root_element : bool }.

(** How the script ends: the application is rendered, the script throws
    its own error, or the engine throws a [TypeError] on an assignment to a
    property of [undefined]. *)
Inductive Outcome :=
| Rendered
| Thrown (msg : jsstring)
| TypeError.

(** The script: [window.process] when it ends, and how it ends. *)
Definition main (page : Page) : Process * Outcome :=
  (* Polyfill process.env for the browser environment. *)
  let process :=
    match window_process page with
    | None => {| env := Some {| API_KEY := None |} |}
    | Some p => p
    end in
  let savedKey := sessionStorage_gemini_api_key page in
  let assigned :=
    if truthy_opt savedKey then
      match env process with
      | Some _ => Some {| env := Some {| API_KEY := savedKey |} |}
      | None => None
      end
    else Some process in
  match assigned with
  | None => (process, TypeError)
  | Some process' =>
    if negb (root_element page) then
      (process', Thrown (lit "Could not find root element to mount to"))
    else (process', Rendered)
  end.

(** [process.env.API_KEY], read later by the service. *)
Definition env_API_KEY (p : Process) : option jsstring := chain (env p) API_KEY.

End Index.

(** ** Counting what a run does *)

Module Observation.

Definition isConstruction (e : Event) : bool :=
  match e with NewGoogleGenAI _ => true | _ => false end.

Definition isConsole (e : Event) : bool :=
  match e with ConsoleLog _ | ConsoleError _ => true | _ => false end.

Definition count (f : Event -> bool) (t : list Event) : nat :=
  List.length (filter f t).

(** A string made of white space and line terminators only. *)
Definition blank (s : jsstring) : Prop := Forall (fun c => isTrimmable c = true) s.

(** A string that neither starts nor ends with white space. *)
Definition trimmed (s : jsstring) : Prop :=
  match s with
  | [] => True
  | c :: _ => isTrimmable c = false /\ isTrimmable (last s c) = false
  end.

(** Some part of the first candidate carries inline data. *)
Definition has_image_part (response : GenerateContentResponse) : Prop :=
  exists ps p, first_candidate_parts response ps /\ In p ps /\ inlineData p <> None.

(** The finish reason is a reason code other than [STOP]. *)
Definition abnormal_finish (response : GenerateContentResponse) : Prop :=
  exists fr, finish_reason response = Some fr /\ fr <> [] /\ fr <> lit "STOP".

(** The finish reason is absent, empty or [STOP]. *)
Definition normal_finish (response : GenerateContentResponse) : Prop :=
  finish_reason response = None \/ finish_reason response = Some []
  \/ finish_reason response = Some (lit "STOP").

(** The request an operation sends for an encoded image and a prompt. *)
Definition request_for (part : Part) (prompt : jsstring) : GenerateContentParameters :=
  {| model := lit "gemini-2.5-flash-image-preview";
     contents :=
       {| parts := Some [part; {| inlineData := None; text := Some prompt |}] |} |}.

(** What follows the request: the answer goes to the interpreter under
    the operation's tag, after a console line; a rejection is thrown on. *)
Definition after_request
    (handle : GenerateContentResponse -> jsstring -> M jsstring)
    (tag line : jsstring) (w : World)
    (outcome : Outcome GenerateContentResponse) : list Event * Result jsstring :=
  match outcome with
  | Fulfilled r => (ConsoleLog line :: trace (handle r tag) w, result (handle r tag) w)
  | Rejected reason => ([], Throw (Error ExternalError reason))
  end.

(** The run of an operation from the point where the key has been taken:
    the opening console line, the SDK client, the file, the second console
    line, the request, and what follows it. *)
Definition run_from_key
    (handle : GenerateContentResponse -> jsstring -> M jsstring)
    (opening sending received tag : jsstring) (key : option jsstring) (file : File)
    (part : Part) (prompt : jsstring) (w : World) : list Event * Result jsstring :=
  let ai := {| apiKey := key |} in
  let request := request_for part prompt in
  let rest := after_request handle tag received w
                (models_generateContent w ai request) in
  ([ConsoleLog opening; NewGoogleGenAI key; ReadAsDataURL file; ConsoleLog sending;
    GenerateContent ai request] ++ fst rest, snd rest).

(** An integer that a number holds exactly and that is printed in plain
    decimal digits ([Number.isSafeInteger]). *)
Definition safe_integer (n : Z) : Prop := (- 2 ^ 53 < n < 2 ^ 53)%Z.

(** The value of a decimal digit. *)
Definition digit_value (c : N) : option Z :=
  if (48 <=? c) && (c <=? 57) then Some (Z.of_N (c - 48)) else None.

(** The value of a run of decimal digits, read from the left. *)
Fixpoint digits_value (acc : Z) (s : jsstring) : option Z :=
  match s with
  | [] => Some acc
  | c :: s' =>
    match digit_value c with
    | Some d => digits_value (10 * acc + d) s'
    | None => None
    end
  end.

(** The value of the digits of a [Decimal.uint], read from the left. *)
Fixpoint uint_value (acc : Z) (d : Decimal.uint) : Z :=
  match d with
  | Decimal.Nil => acc
  | Decimal.D0 d => uint_value (10 * acc + 0) d
  | Decimal.D1 d => uint_value (10 * acc + 1) d
  | Decimal.D2 d => uint_value (10 * acc + 2) d
  | Decimal.D3 d => uint_value (10 * acc + 3) d
  | Decimal.D4 d => uint_value (10 * acc + 4) d
  | Decimal.D5 d => uint_value (10 * acc + 5) d
  | Decimal.D6 d => uint_value (10 * acc + 6) d
  | Decimal.D7 d => uint_value (10 * acc + 7) d
  | Decimal.D8 d => uint_value (10 * acc + 8) d
  | Decimal.D9 d => uint_value (10 * acc + 9) d
  end.

(** The integer that a decimal numeral denotes: digits, after an optional
    minus sign. *)
Definition decimal_value (s : jsstring) : option Z :=
  match s with
  | [] => None
  | c :: s' =>
    if c =? 45 then
      match s' with
      | [] => None
      | _ :: _ => option_map Z.opp (digits_value 0 s')
      end
    else digits_value 0 s
  end.

(** The text in the input of the dialog after some actions: what was typed
    last, or the text it started with. *)
Fixpoint typed_text (apiKey : jsstring) (actions : list ApiKeyModal.Action)
  : jsstring :=
  match actions with
  | [] => apiKey
  | ApiKeyModal.Change value :: rest => typed_text value rest
  | ApiKeyModal.Click :: rest => typed_text apiKey rest
  end.

End Observation.
Import Observation.

(** ** More sample hosts and values *)

Module Scenario.

(** A host whose file reader fails. *)
Definition unreadable : World :=
  {| FileReader_readAsDataURL := fun _ => Rejected (lit "NotReadableError");
     process_env_API_KEY := process_env_API_KEY Sample.host;
     GoogleGenAI_constructor := GoogleGenAI_constructor Sample.host;
     models_generateContent := models_generateContent Sample.host;
     Object_prototype_text := Object_prototype_text Sample.host |}.

(** A host whose network call fails. *)
Definition offline : World :=
  {| FileReader_readAsDataURL := FileReader_readAsDataURL Sample.host;
     process_env_API_KEY := process_env_API_KEY Sample.host;
     GoogleGenAI_constructor := GoogleGenAI_constructor Sample.host;
     models_generateContent := fun _ _ => Rejected (lit "Failed to fetch");
     Object_prototype_text := Object_prototype_text Sample.host |}.

(** A host whose SDK refuses every key. *)
Definition refusing : World :=
  {| FileReader_readAsDataURL := FileReader_readAsDataURL Sample.host;
     process_env_API_KEY := process_env_API_KEY Sample.host;
     GoogleGenAI_constructor := fun _ => Some (lit "invalid options");
     models_generateContent := models_generateContent Sample.host;
     Object_prototype_text := Object_prototype_text Sample.host |}.

(** A host whose environment holds the empty string as key; its SDK, as
    the one of [Sample.host], refuses only a key that is not there. *)
Definition empty_env_key : World :=
  {| FileReader_readAsDataURL := FileReader_readAsDataURL Sample.host;
     process_env_API_KEY := Some [];
     GoogleGenAI_constructor := GoogleGenAI_constructor Sample.host;
     models_generateContent := models_generateContent Sample.host;
     Object_prototype_text := Object_prototype_text Sample.host |}.

(** The host of a page after the bootstrap: its environment holds what
    the script left in [process.env.API_KEY]. *)
Definition after_bootstrap (page : Index.Page) : World :=
  {| FileReader_readAsDataURL := FileReader_readAsDataURL Sample.host;
     process_env_API_KEY := Index.env_API_KEY (fst (Index.main page));
     GoogleGenAI_constructor := GoogleGenAI_constructor Sample.host;
     models_generateContent := models_generateContent Sample.host;
     Object_prototype_text := Object_prototype_text Sample.host |}.

(** A page just loaded, with a stored key or without. *)
Definition fresh_page (key : option jsstring) (root : bool) : Index.Page :=
  {| Index.window_process := None;
     Index.sessionStorage_gemini_api_key := key;
     Index.root_element := root |}.

(** A block message without a block reason, beside an image. *)
Definition message_only : GenerateContentResponse :=
  Sample.response_of
    (Some {| blockReason := None; blockReasonMessage := Some (lit "note") |})
    [Sample.image_part Sample.png] (Some (lit "STOP")) None.

(** An image part whose blob has no MIME type. *)
Definition untyped_image : GenerateContentResponse :=
  Sample.response_of None
    [Sample.image_part {| mimeType := None; data := Some (lit "AAAA") |}]
    (Some (lit "STOP")) None.

(** The part that the encoder builds for [Sample.photo]. *)
Definition photo_part : Part :=
  {| inlineData := Some {| mimeType := Some (lit "image/png");
                           data := Some (lit "iVBORw0=") |};
     text := None |}.

End Scenario.

(** ** Proof tools *)

(** Division and remainder by constants, for [lia]. *)
Ltac Zify.zify_post_hook ::= Z.to_euclidean_division_equations.

(** Literals stay folded under simplification. *)
Arguments lit : simpl never.

(** Unfolds the interpreter down to its branches. *)
Ltac interpret :=
  unfold result, GeminiService.handleApiResponse, Localized.handleApiResponse,
    bind, translate.

(** Runs the console and control effects of a branch. *)
Ltac effects :=
  cbn [console_log console_error throw ret snd fst app prompts_sent flat_map
       existsb isNetworkCall isFileRead orb].

(** Unfolds an operation to its sequence of steps. *)
Ltac operation :=
  unfold GeminiService.generateEditedImage, GeminiService.generateFilteredImage,
    GeminiService.generateAdjustedImage, Localized.generateEditedImage,
    Localized.generateFilteredImage, Localized.generateAdjustedImage.

(** Equations of [trace] and [result] on the steps of an operation. *)
Create Rewrite HintDb run.

Ltac run := repeat (autorewrite with run; cbv beta).

(** * Properties *)

(** ** Strings *)

Example lit_ascii : lit "a,b" = [97; 44; 98].
Proof. reflexivity. Qed.

Example lit_accents : lit "edição" = [101; 100; 105; 231; 227; 111].
Proof. reflexivity. Qed.

Example split_example :
  split_comma (lit "data:image/png;base64,AAAA")
  = [lit "data:image/png;base64"; lit "AAAA"].
Proof. reflexivity. Qed.

Example split_empty : split_comma [] = [[]].
Proof. reflexivity. Qed.

Example match_example :
  match_mime (lit "data:image/png;base64") = Some (lit "image/png").
Proof. reflexivity. Qed.

Example match_empty_group : match_mime (lit "data:;:x;") = Some [].
Proof. reflexivity. Qed.

Example trim_example :
  trim (lit "  no image,  sorry " ++ NL) = lit "no image,  sorry".
Proof. reflexivity. Qed.

Example number_examples :
  Number_toString 0 = lit "0" /\ Number_toString 1280 = lit "1280"
  /\ Number_toString (-7) = lit "-7".
Proof. repeat split; reflexivity. Qed.

Lemma substring_of_mid (a s b : jsstring) : substring_of s (a ++ s ++ b).
Proof. exists a, b; reflexivity. Qed.

Lemma substring_of_prefix (a s b : jsstring) :
  substring_of s b -> substring_of s (a ++ b).
Proof.
  intros [u [v ->]]. exists (a ++ u), v. now rewrite <- app_assoc.
Qed.

Lemma substring_of_head (s b : jsstring) : substring_of s (s ++ b).
Proof. exists [], b; reflexivity. Qed.

Lemma substring_of_last (a s : jsstring) : substring_of s (a ++ s).
Proof. exists a, []. now rewrite app_nil_r. Qed.

Lemma substring_of_nil (t : jsstring) : substring_of [] t.
Proof. exists [], t; reflexivity. Qed.

Lemma streq_eq (s t : jsstring) : streq s t = true <-> s = t.
Proof.
  revert t; induction s as [|a s IH]; intros [|b t]; simpl; split;
    try congruence; try reflexivity.
  - intros H. apply andb_true_iff in H as [Hab Hst].
    apply N.eqb_eq in Hab. apply IH in Hst. congruence.
  - intros [= -> ->]. rewrite N.eqb_refl. simpl. now apply IH.
Qed.

Lemma streq_neq (s t : jsstring) : s <> t -> streq s t = false.
Proof.
  intros H. destruct (streq s t) eqn:E; [|reflexivity].
  apply streq_eq in E. contradiction.
Qed.

Lemma truthy_nonempty (s : jsstring) : s <> [] -> truthy s = true.
Proof. destruct s; [congruence | reflexivity]. Qed.

Lemma truthy_false_empty (s : jsstring) : truthy s = false -> s = [].
Proof. destruct s; [reflexivity | discriminate]. Qed.

(** ** [split] and the MIME expression *)

Lemma split_comma_nonempty (s : jsstring) : split_comma s <> [].
Proof.
  destruct s as [|c s]; simpl; [discriminate|].
  destruct (c =? COMMA); [discriminate|].
  destruct (split_comma s); discriminate.
Qed.

Lemma split_comma_no_comma (s : jsstring) : ~ In COMMA s -> split_comma s = [s].
Proof.
  induction s as [|c s IH]; simpl; intros H; [reflexivity|].
  destruct (N.eqb_spec c COMMA) as [->|Hc]; [exfalso; apply H; now left|].
  rewrite IH; [reflexivity|]. intros Hin; apply H; now right.
Qed.

Lemma split_comma_at_comma (a r : jsstring) :
  ~ In COMMA a -> split_comma (a ++ COMMA :: r) = a :: split_comma r.
Proof.
  induction a as [|c a IH]; simpl; intros H.
  - reflexivity.
  - destruct (N.eqb_spec c COMMA) as [->|Hc]; [exfalso; apply H; now left|].
    rewrite IH; [reflexivity|]. intros Hin; apply H; now right.
Qed.

Lemma split_comma_head (s : jsstring) :
  at_index (split_comma s) 0 = Some (before_first_comma s).
Proof.
  induction s as [|c s IH]; simpl; [reflexivity|].
  destruct (c =? COMMA); [reflexivity|].
  destruct (split_comma s) as [|h t]; simpl in *; [discriminate|].
  now injection IH as ->.
Qed.

Lemma split_comma_short (s : jsstring) :
  (List.length (split_comma s) <? 2)%nat = true <-> ~ In COMMA s.
Proof.
  split.
  - induction s as [|c s IH]; simpl; intros H; [tauto|].
    destruct (N.eqb_spec c COMMA) as [->|Hc].
    + simpl in H. pose proof (split_comma_nonempty s).
      destruct (split_comma s); [contradiction| discriminate].
    + intros [Heq|Hin]; [congruence|]. apply IH; [|exact Hin].
      destruct (split_comma s) as [|h t]; [reflexivity| exact H].
  - intros H. now rewrite split_comma_no_comma.
Qed.

Lemma before_first_comma_no_comma (a r : jsstring) :
  ~ In COMMA a -> before_first_comma (a ++ COMMA :: r) = a.
Proof.
  induction a as [|c a IH]; simpl; intros H; [reflexivity|].
  destruct (N.eqb_spec c COMMA) as [->|Hc]; [exfalso; apply H; now left|].
  rewrite IH; [reflexivity|]. intros Hin; apply H; now right.
Qed.

Lemma lazy_group_sound (s g : jsstring) :
  lazy_group_semicolon s = Some g ->
  (exists b, s = g ++ SEMICOLON :: b) /\ dot_all g /\ ~ In SEMICOLON g.
Proof.
  revert g; induction s as [|c s IH]; simpl; intros g H; [discriminate|].
  destruct (N.eqb_spec c SEMICOLON) as [->|Hc].
  - injection H as <-. split; [now exists s|]. split; [intros c []| intros []].
  - destruct (isLineTerminator c) eqn:Hl; [discriminate|].
    destruct (lazy_group_semicolon s) as [g'|]; [|discriminate].
    injection H as <-. destruct (IH g' eq_refl) as [[b ->] [Hdot Hsemi]].
    split; [now exists b|]. split.
    + intros c' [<-|Hin]; [exact Hl | now apply Hdot].
    + intros [Heq|Hin]; [congruence | tauto].
Qed.

(** When the lazy group fails, no group at all closes from this position. *)
Lemma lazy_group_none (s : jsstring) :
  lazy_group_semicolon s = None ->
  forall m b, s = m ++ SEMICOLON :: b -> ~ dot_all m.
Proof.
  induction s as [|c s IH]; simpl; intros H m b Hs Hdot.
  - destruct m; discriminate.
  - destruct (N.eqb_spec c SEMICOLON) as [->|Hc]; [discriminate|].
    destruct m as [|c' m]; simpl in Hs; injection Hs as Hc' Hs;
      [congruence | subst c'].
    destruct (isLineTerminator c) eqn:Hl.
    + rewrite (Hdot c) in Hl by now left. discriminate.
    + destruct (lazy_group_semicolon s); [discriminate|].
      apply (IH eq_refl m b Hs). intros c' Hin. apply Hdot. now right.
Qed.

(** The lazy group is the shortest one. *)
Lemma lazy_group_shortest (s g : jsstring) :
  lazy_group_semicolon s = Some g ->
  forall m b, s = m ++ SEMICOLON :: b -> (List.length g <= List.length m)%nat.
Proof.
  revert g; induction s as [|c s IH]; simpl; intros g H m b Hs; [discriminate|].
  destruct (N.eqb_spec c SEMICOLON) as [->|Hc].
  - injection H as <-. simpl. lia.
  - destruct (isLineTerminator c); [discriminate|].
    destruct (lazy_group_semicolon s) as [g'|]; [|discriminate].
    injection H as <-.
    destruct m as [|c' m]; simpl in Hs; injection Hs as Hc' Hs;
      [congruence | subst c'].
    simpl. apply le_n_S. exact (IH g' eq_refl m b Hs).
Qed.

Lemma matches_at_nil (c : N) (p m : jsstring) :
  matches_at (c :: p) [] m ->
  c = COLON /\ exists b, p = m ++ SEMICOLON :: b /\ dot_all m.
Proof.
  intros [b [Hp Hdot]]. simpl in Hp. injection Hp as -> ->.
  split; [reflexivity | now exists b].
Qed.

Lemma matches_at_cons (c c' : N) (p a m : jsstring) :
  matches_at (c :: p) (c' :: a) m -> matches_at p a m.
Proof.
  intros [b [Hp Hdot]]. simpl in Hp. injection Hp as _ ->. now exists b.
Qed.

Lemma matches_at_shift (c : N) (p a m : jsstring) :
  matches_at p a m -> matches_at (c :: p) (c :: a) m.
Proof. intros [b [-> Hdot]]. now exists b. Qed.

(** The expression finds nothing exactly when the pattern occurs nowhere. *)
Lemma match_mime_none (p : jsstring) :
  match_mime p = None -> forall a m, ~ matches_at p a m.
Proof.
  induction p as [|c p IH]; simpl; intros H a m Hm.
  - destruct Hm as [b [Hp _]]. destruct a; discriminate.
  - destruct a as [|c' a].
    + apply matches_at_nil in Hm as [-> [b [Hp Hdot]]].
      rewrite N.eqb_refl in H.
      destruct (lazy_group_semicolon p) eqn:E; [discriminate|].
      exact (@lazy_group_none p E m b Hp Hdot).
    + apply matches_at_cons in Hm.
      destruct (c =? COLON); [destruct (lazy_group_semicolon p); [discriminate|]|];
        exact (IH H a m Hm).
Qed.

(** What the expression captures is the MIME type of the pattern. *)
Lemma match_mime_sound (p g : jsstring) :
  match_mime p = Some g -> mime_match p g.
Proof.
  induction p as [|c p IH]; simpl; intros H; [discriminate|].
  assert (Hskip : match_mime p = Some g ->
                  (forall m, ~ matches_at (c :: p) [] m) ->
                  mime_match (c :: p) g).
  { intros Hp Hnil. destruct (IH Hp) as [a [Ha Hmin]].
    exists (c :: a). split; [now apply matches_at_shift|].
    intros [|c' a'] m' Hm'; [exfalso; exact (Hnil m' Hm')|].
    apply matches_at_cons in Hm'. simpl.
    destruct (Hmin a' m' Hm') as [Hlt|[Heq Hle]]; [left; lia | right; lia]. }
  destruct (N.eqb_spec c COLON) as [->|Hc].
  - destruct (lazy_group_semicolon p) as [g'|] eqn:E.
    + injection H as <-.
      destruct (@lazy_group_sound p g' E) as [[b Hb] [Hdot _]].
      exists []. split; [exists b; split; [now rewrite Hb | exact Hdot]|].
      intros [|c' a'] m' Hm'; [|left; simpl; lia].
      apply matches_at_nil in Hm' as [_ [b' [Hp' _]]].
      right. split; [reflexivity|]. exact (@lazy_group_shortest p g' E m' b' Hp').
    + apply Hskip; [exact H|]. intros m Hm.
      apply matches_at_nil in Hm as [_ [b [Hp Hdot]]].
      exact (@lazy_group_none p E m b Hp Hdot).
  - apply Hskip; [exact H|]. intros m Hm.
    apply matches_at_nil in Hm as [Heq _]. contradiction.
Qed.

(** Two occurrences that start at the same place with groups of the same
    length are the same. *)
Lemma matches_at_same (p a a' m m' : jsstring) :
  matches_at p a m -> matches_at p a' m' ->
  List.length a = List.length a' -> List.length m = List.length m' -> m = m'.
Proof.
  intros [b [Hp _]] [b' [Hp' _]] Ha Hm. rewrite Hp in Hp'.
  apply app_eq_app in Hp' as [l [[Hl1 Hl2]|[Hl1 Hl2]]];
    assert (l = []) by
      (apply length_zero_iff_nil; apply (f_equal (@List.length N)) in Hl1;
       rewrite length_app in Hl1; lia);
    subst l; simpl in Hl2; injection Hl2 as Hl2;
    apply app_eq_app in Hl2 as [l [[Hk1 Hk2]|[Hk1 Hk2]]];
    assert (l = []) by
      (apply length_zero_iff_nil; apply (f_equal (@List.length N)) in Hk1;
       rewrite length_app in Hk1; lia);
    subst l; rewrite app_nil_r in Hk1; congruence.
Qed.

(** The expression captures [g] exactly when [g] is the MIME type of the
    pattern. *)
Lemma match_mime_spec (p g : jsstring) : match_mime p = Some g <-> mime_match p g.
Proof.
  split; [apply match_mime_sound|].
  intros [a [Ha Hmin]].
  destruct (match_mime p) as [g'|] eqn:E.
  - destruct (@match_mime_sound p g' E) as [a' [Ha' Hmin']].
    destruct (Hmin a' g' Ha') as [Hlt|[Heq Hle]];
      destruct (Hmin' a g Ha) as [Hlt'|[Heq' Hle']]; try lia.
    f_equal. apply (matches_at_same Ha' Ha); lia.
  - exfalso. exact (@match_mime_none p E a g Ha).
Qed.

(** The group closes at the first semicolon when nothing before it is a
    semicolon or a line terminator. *)
Lemma lazy_group_complete (g b : jsstring) :
  forallb (fun c => negb ((c =? SEMICOLON) || isLineTerminator c)) g = true ->
  lazy_group_semicolon (g ++ SEMICOLON :: b) = Some g.
Proof.
  induction g as [|c g IH]; simpl; intros H; [reflexivity|].
  apply andb_true_iff in H as [Hc Hg].
  apply negb_true_iff, orb_false_iff in Hc as [Hs Hl].
  rewrite Hs, Hl, IH; [reflexivity | exact Hg].
Qed.

Lemma match_mime_skip (a s : jsstring) :
  ~ In COLON a -> match_mime (a ++ s) = match_mime s.
Proof.
  induction a as [|c a IH]; simpl; intros H; [reflexivity|].
  destruct (N.eqb_spec c COLON) as [->|Hc]; [exfalso; apply H; now left|].
  apply IH. intros Hin; apply H; now right.
Qed.

Lemma valid_mime_spec (m : jsstring) :
  valid_mime m = true ->
  m <> [] /\ ~ In COMMA m
  /\ forallb (fun c => negb ((c =? SEMICOLON) || isLineTerminator c)) m = true.
Proof.
  unfold valid_mime. intros H. apply andb_true_iff in H as [Ht Hf].
  split; [destruct m; [discriminate | discriminate]|].
  clear Ht. induction m as [|c m IH]; simpl in *; [tauto|].
  apply andb_true_iff in Hf as [Hc Hm].
  apply negb_true_iff in Hc. apply orb_false_iff in Hc as [Hc Hl].
  apply orb_false_iff in Hc as [Hcomma Hsemi].
  destruct (IH Hm) as [Hin Hall]. split.
  - intros [Heq|Hin']; [|tauto]. subst c. discriminate.
  - now rewrite Hsemi, Hl, Hall.
Qed.

(** ** Base64 *)

Lemma sextet_roundtrip (n : N) :
  n < 64 -> Base64.sextet_of_char (Base64.char_of_sextet n) = Some n.
Proof.
  intros Hn. unfold Base64.char_of_sextet.
  repeat match goal with
         | |- context [?a <? ?b] => destruct (N.ltb_spec a b)
         | |- context [?a =? ?b] => destruct (N.eqb_spec a b)
         end;
  unfold Base64.sextet_of_char;
  repeat (match goal with
          | |- context [?a <=? ?b] => destruct (N.leb_spec a b)
          | |- context [?a =? ?b] => destruct (N.eqb_spec a b)
          end; try lia; cbn [andb]);
  try (f_equal; lia).
Qed.

Lemma char_of_sextet_not_pad (n : N) :
  (Base64.char_of_sextet n =? Base64.PAD) = false.
Proof.
  unfold Base64.char_of_sextet, Base64.PAD. apply N.eqb_neq.
  repeat match goal with
         | |- context [?a <? ?b] => destruct (N.ltb_spec a b)
         | |- context [?a =? ?b] => destruct (N.eqb_spec a b)
         end; lia.
Qed.

Lemma char_of_sextet_not_comma (n : N) : Base64.char_of_sextet n <> COMMA.
Proof.
  unfold Base64.char_of_sextet, COMMA.
  repeat match goal with
         | |- context [?a <? ?b] => destruct (N.ltb_spec a b)
         | |- context [?a =? ?b] => destruct (N.eqb_spec a b)
         end; lia.
Qed.

Lemma list_ind3 (A : Type) (P : list A -> Prop) :
  P [] -> (forall a, P [a]) -> (forall a b, P [a; b]) ->
  (forall a b c l, P l -> P (a :: b :: c :: l)) ->
  forall l, P l.
Proof.
  intros H0 H1 H2 H3.
  assert (H : forall l, P l /\ (forall a, P (a :: l)) /\ (forall a b, P (a :: b :: l))).
  { induction l as [|c l [IH0 [IH1 IH2]]].
    - repeat split; auto.
    - repeat split; auto. }
  intros l. apply H.
Qed.

Lemma encode_no_comma (l : list N) : ~ In COMMA (Base64.encode l).
Proof.
  induction l as [| a | a b | a b c l IH] using list_ind3;
    cbn [Base64.encode In]; try tauto;
    pose proof char_of_sextet_not_comma as Hc;
    assert (Hp : Base64.PAD <> COMMA) by discriminate;
    intros H; repeat (destruct H as [H|H]; [solve [eapply Hc; eauto | eauto] |]);
    tauto.
Qed.

Lemma decode_encode (l : list N) :
  Forall (fun b => b < 256) l -> Base64.decode (Base64.encode l) = Some l.
Proof.
  induction l as [| a | a b | a b c l IH] using list_ind3; intros Hl.
  - reflexivity.
  - inversion_clear Hl as [|? ? Ha _].
    cbn [Base64.encode Base64.decode].
    rewrite !sextet_roundtrip by lia.
    rewrite !N.eqb_refl. cbn [andb].
    do 2 f_equal. lia.
  - inversion_clear Hl as [|? ? Ha Hl']. inversion_clear Hl' as [|? ? Hb _].
    cbn [Base64.encode Base64.decode].
    rewrite !sextet_roundtrip by lia.
    rewrite char_of_sextet_not_pad, N.eqb_refl. cbn [andb].
    f_equal. f_equal; [lia|]. f_equal. lia.
  - inversion_clear Hl as [|? ? Ha Hl']. inversion_clear Hl' as [|? ? Hb Hl''].
    inversion_clear Hl'' as [|? ? Hc Hl].
    cbn [Base64.encode Base64.decode].
    rewrite !sextet_roundtrip by lia.
    rewrite !char_of_sextet_not_pad. cbn [andb].
    rewrite IH by assumption.
    f_equal. f_equal; [lia|]. f_equal; [lia|]. f_equal. lia.
Qed.

Lemma bytes_of_octets_to_N (bs : list byte) :
  Base64.bytes_of_octets (List.map Byte.to_N bs) = Some bs.
Proof.
  induction bs as [|b bs IH]; simpl; [reflexivity|].
  now rewrite Byte.of_to_N, IH.
Qed.

Lemma to_N_octets (bs : list byte) :
  Forall (fun b => b < 256) (List.map Byte.to_N bs).
Proof.
  induction bs as [|b bs IH]; simpl; constructor; [|exact IH].
  pose proof (Byte.to_N_bounded b). lia.
Qed.

(** Decoding what the reader encoded gives the bytes back. *)
Lemma decode_encode_bytes (bs : list byte) :
  Base64.decode_bytes (Base64.encode_bytes bs) = Some bs.
Proof.
  unfold Base64.decode_bytes, Base64.encode_bytes.
  rewrite decode_encode by apply to_N_octets.
  apply bytes_of_octets_to_N.
Qed.

Example base64_example :
  Base64.encode_bytes (file_bytes Sample.photo) = lit "iVBORw0="
  /\ Base64.decode_bytes (lit "iVBORw0=") = Some (file_bytes Sample.photo).
Proof. split; reflexivity. Qed.

(** ** The file encoder *)

Lemma before_first_comma_id (d : jsstring) :
  ~ In COMMA d -> before_first_comma d = d.
Proof.
  induction d as [|c d IH]; simpl; intros H; [reflexivity|].
  destruct (N.eqb_spec c COMMA) as [->|Hc]; [exfalso; apply H; now left|].
  rewrite IH; [reflexivity|]. intros Hin; apply H; now right.
Qed.

(** The two copies of the encoder are the same function. *)
Lemma fileToPart_copies : Localized.fileToPart = GeminiService.fileToPart.
Proof. reflexivity. Qed.

(** The encoder reads the file once and does nothing else to the host. *)
Lemma fileToPart_trace (file : File) (w : World) :
  trace (GeminiService.fileToPart file) w = [ReadAsDataURL file].
Proof.
  unfold trace, GeminiService.fileToPart, bind, readAsDataURL.
  destruct (FileReader_readAsDataURL w file) as [url|reason]; [|reflexivity].
  destruct (List.length (split_comma url) <? 2)%nat; [reflexivity|].
  destruct (negb _ || negb _); reflexivity.
Qed.

(** What the encoder returns on a URL with a separator whose prefix the
    expression matches with a non-empty group. *)
Lemma fileToPart_decodes (w : World) (file : File) (a r m : jsstring) :
  FileReader_readAsDataURL w file = Fulfilled (a ++ COMMA :: r) ->
  ~ In COMMA a -> match_mime a = Some m -> m <> [] ->
  result (GeminiService.fileToPart file) w
  = Return {| inlineData := Some {| mimeType := Some m;
                                    data := Some (before_first_comma r) |};
              text := None |}.
Proof.
  intros Hread Ha Hm Hne.
  unfold result, GeminiService.fileToPart, bind, readAsDataURL.
  rewrite Hread, split_comma_at_comma by exact Ha.
  pose proof (split_comma_head r) as Hhead.
  destruct (split_comma r) as [|h t]; [discriminate|].
  injection Hhead as ->.
  cbn [List.length Nat.ltb Nat.leb at_index nth_error chain].
  rewrite Hm. cbn [defined truthy_opt negb orb].
  rewrite (truthy_nonempty Hne). reflexivity.
Qed.

(** What the encoder does on a URL that is malformed. *)
Lemma fileToPart_rejects (w : World) (file : File) (url : jsstring) :
  FileReader_readAsDataURL w file = Fulfilled url ->
  malformed_data_url url ->
  exists msg,
    result (GeminiService.fileToPart file) w = Throw (Error DecodingError msg).
Proof.
  intros Hread Hbad.
  unfold result, GeminiService.fileToPart, bind, readAsDataURL.
  rewrite Hread.
  destruct (List.length (split_comma url) <? 2)%nat eqn:Hlen.
  - eexists; reflexivity.
  - rewrite split_comma_head. cbn [chain].
    destruct (match_mime (before_first_comma url)) as [g|] eqn:Hm.
    + destruct g as [|c g].
      * eexists; reflexivity.
      * exfalso. destruct Hbad as [Hno|Hpat].
        -- apply split_comma_short in Hno. congruence.
        -- apply Hpat. exists (c :: g).
           split; [now apply match_mime_spec | discriminate].
    + eexists; reflexivity.
Qed.

(** Otherwise the encoder succeeds, with the MIME type of the pattern. *)
Lemma fileToPart_accepts (w : World) (file : File) (url m : jsstring) :
  FileReader_readAsDataURL w file = Fulfilled url ->
  In COMMA url -> mime_match (before_first_comma url) m -> m <> [] ->
  exists d,
    result (GeminiService.fileToPart file) w
    = Return {| inlineData := Some {| mimeType := Some m; data := Some d |};
                text := None |}.
Proof.
  intros Hread Hcomma Hm Hne.
  assert (Hsplit : exists r, url = before_first_comma url ++ COMMA :: r
                             /\ ~ In COMMA (before_first_comma url)).
  { clear Hread Hm. induction url as [|c url IH]; simpl in *; [contradiction|].
    destruct (N.eqb_spec c COMMA) as [->|Hc].
    - exists url. split; [reflexivity | tauto].
    - destruct Hcomma as [Heq|Hin]; [congruence|].
      destruct (IH Hin) as [r [Hr Hn]]. exists r. split.
      + simpl. now rewrite <- Hr.
      + simpl. intros [Heq|Hin']; [congruence | tauto]. }
  destruct Hsplit as [r [Hurl Hno]].
  rewrite Hurl in Hread. apply match_mime_spec in Hm.
  eexists. exact (@fileToPart_decodes w file _ r m Hread Hno Hm Hne).
Qed.

Example empty_mime_is_malformed : malformed_data_url (lit "data:;base64,AAAA").
Proof.
  right. intros [m [Hm Hne]]. apply match_mime_spec in Hm.
  vm_compute in Hm. congruence.
Qed.

Example encode_photo :
  result (GeminiService.fileToPart Sample.photo) Sample.host
  = Return {| inlineData := Some {| mimeType := Some (lit "image/png");
                                    data := Some (lit "iVBORw0=") |};
              text := None |}.
Proof. reflexivity. Qed.

Example encode_no_separator :
  result (GeminiService.fileToPart Sample.photo) (Sample.host_reading (lit "data:"))
  = Throw (Error DecodingError (lit "URL de dados inválida")).
Proof. reflexivity. Qed.

Example encode_no_mime :
  result (GeminiService.fileToPart Sample.photo)
         (Sample.host_reading (lit "data:;base64,AAAA"))
  = Throw (Error DecodingError
             (lit "Não foi possível extrair o tipo MIME da URL de dados")).
Proof. reflexivity. Qed.

(** A declared type with a parameter is cut at its first semicolon. *)
Example encode_type_with_parameter :
  result (GeminiService.fileToPart Sample.photo)
         (Sample.host_reading (lit "data:image/svg+xml;charset=utf-8;base64,AAAA"))
  = Return {| inlineData := Some {| mimeType := Some (lit "image/svg+xml");
                                    data := Some (lit "AAAA") |};
              text := None |}.
Proof. reflexivity. Qed.

(** ** The operations *)

Lemma missing_credential_falsy (apiKey : option jsstring) :
  missing_credential apiKey <-> truthy_opt apiKey = false.
Proof.
  split.
  - intros [-> | ->]; reflexivity.
  - destruct apiKey as [[|c s]|]; simpl; intros H;
      [right; reflexivity | discriminate | left; reflexivity].
Qed.

(** C1. Each of the three operations of [services/geminiService.ts], called
    with an empty or absent API key, throws the missing-credential error as
    its first action: the run has no event at all, so the file has not been
    read or encoded, the SDK client has not been built and no request has
    been sent. *)
Theorem missing_credential_fails_first :
  forall (apiKey : option jsstring) (originalImage : File) (prompt : jsstring)
         (hotspot : Hotspot) (w : World),
    missing_credential apiKey ->
    let e := Error MissingCredentialError
               (lit "An API Key must be set when running in a browser.") in
    GeminiService.generateEditedImage apiKey originalImage prompt hotspot w
    = ([], Throw e)
    /\ GeminiService.generateFilteredImage apiKey originalImage prompt w
       = ([], Throw e)
    /\ GeminiService.generateAdjustedImage apiKey originalImage prompt w
       = ([], Throw e).
Proof.
  intros apiKey originalImage prompt hotspot w H e.
  apply missing_credential_falsy in H.
  unfold GeminiService.generateEditedImage, GeminiService.generateFilteredImage,
    GeminiService.generateAdjustedImage.
  rewrite H. cbn [negb]. repeat split.
Qed.

Lemma missing_credential_fails_first_witness :
  missing_credential (Some [])
  /\ GeminiService.generateFilteredImage (Some []) Sample.photo (lit "sepia")
       Sample.host
     = ([], Throw (Error MissingCredentialError
                     (lit "An API Key must be set when running in a browser."))).
Proof.
  split; [right; reflexivity|].
  apply (missing_credential_fails_first (apiKey := Some []) Sample.photo
           (lit "sepia") {| hotspot_x := 0; hotspot_y := 0 |} Sample.host).
  right; reflexivity.
Defined.

(** The localized copy takes no key and has no guard of its own: it hands
    [process.env.API_KEY] to the SDK constructor.  When the constructor
    refuses the key, each operation stops there, before the file is read. *)
Lemma localized_key_refused_by_sdk (w : World) (file : File) (prompt msg : jsstring)
    (hotspot : Hotspot) (op : M jsstring) :
  GoogleGenAI_constructor w (process_env_API_KEY w) = Some msg ->
  op = Localized.generateEditedImage file prompt hotspot
  \/ op = Localized.generateFilteredImage file prompt
  \/ op = Localized.generateAdjustedImage file prompt ->
  result op w = Throw (Error ExternalError msg)
  /\ no_file_read (trace op w) /\ no_network_call (trace op w).
Proof.
  intros H Hop.
  unfold result, trace, no_file_read, no_network_call.
  destruct Hop as [-> | [-> | ->]];
    unfold Localized.generateEditedImage, Localized.generateFilteredImage,
      Localized.generateAdjustedImage, bind, console_log,
      process_env_API_KEY_get, new_GoogleGenAI;
    rewrite H; repeat split.
Qed.

(** C1 as stated fails for the operations of the localized copy, which the
    claim cites beside the service: they take no key and have no guard.
    With the empty string in [process.env.API_KEY] and an SDK that accepts
    it, the edit operation does not fail: it reads the file, sends the
    request and returns the image. *)
Lemma localized_operation_has_no_guard :
  ~ (forall (w : World) (file : File) (prompt : jsstring) (hotspot : Hotspot),
        missing_credential (process_env_API_KEY w) ->
        exists msg,
          result (Localized.generateEditedImage file prompt hotspot) w
          = Throw (Error MissingCredentialError msg)
          /\ no_file_read (trace (Localized.generateEditedImage file prompt hotspot) w)
          /\ no_network_call
               (trace (Localized.generateEditedImage file prompt hotspot) w)).
Proof.
  intros H.
  destruct (H Scenario.empty_env_key Sample.photo (lit "remove the lamp")
              {| hotspot_x := 120; hotspot_y := 45 |}) as [msg [Hres _]].
  { right. reflexivity. }
  assert (Hrun : result (Localized.generateEditedImage Sample.photo
                           (lit "remove the lamp")
                           {| hotspot_x := 120; hotspot_y := 45 |})
                        Scenario.empty_env_key
                 = Return (lit "data:image/png;base64,iVBORw0KGgo="))
    by (vm_compute; reflexivity).
  rewrite Hrun in Hres. discriminate Hres.
Qed.

(** The same run, in full: neither the file read nor the request is held
    back by the empty key. *)
Example empty_env_key_run :
  result (Localized.generateFilteredImage Sample.photo (lit "sepia"))
         Scenario.empty_env_key
  = Return (lit "data:image/png;base64,iVBORw0KGgo=")
  /\ existsb isFileRead
       (trace (Localized.generateFilteredImage Sample.photo (lit "sepia"))
              Scenario.empty_env_key) = true
  /\ existsb isNetworkCall
       (trace (Localized.generateFilteredImage Sample.photo (lit "sepia"))
              Scenario.empty_env_key) = true.
Proof. vm_compute. repeat split. Qed.

(** ** The response interpreter *)

Lemma no_block_reason_falsy (response : GenerateContentResponse) :
  no_block_reason response <->
  truthy_opt (promptFeedback response ?> blockReason) = false.
Proof.
  unfold no_block_reason, has_block_reason. split.
  - intros H. destruct (promptFeedback response) as [pf|]; [|reflexivity].
    cbn [chain]. destruct (blockReason pf) as [[|c r]|] eqn:E; try reflexivity.
    exfalso. apply (H (c :: r)). exists pf. repeat split; [exact E | discriminate].
  - intros H r [pf [Hpf [Hbr Hr]]]. rewrite Hpf in H. cbn [chain] in H.
    rewrite Hbr in H. cbn [truthy_opt] in H.
    rewrite (truthy_nonempty Hr) in H. discriminate.
Qed.

Lemma find_inlineData_first (ps : list Part) (p : Part) :
  first_image_part ps p -> find_inlineData ps = Some p.
Proof.
  intros [before [after [-> [Hbefore Hp]]]]. unfold find_inlineData.
  induction before as [|q before IH]; simpl.
  - destruct (inlineData p); [reflexivity | congruence].
  - rewrite (Hbefore q) by now left. simpl.
    apply IH. intros q' Hq'. apply Hbefore. now right.
Qed.

Lemma find_inlineData_none (ps : list Part) :
  (forall p, In p ps -> inlineData p = None) -> find_inlineData ps = None.
Proof.
  unfold find_inlineData. induction ps as [|q ps IH]; simpl; intros H; [reflexivity|].
  rewrite (H q) by now left. simpl. apply IH. intros p Hp. apply H. now right.
Qed.

Lemma image_part_lookup (response : GenerateContentResponse) (ps : list Part) :
  first_candidate_parts response ps ->
  candidates response ?> first ?> content ?> parts ?> find_inlineData
  = find_inlineData ps.
Proof.
  intros [c [ct [Hc [Hct Hps]]]]. rewrite Hc. cbn [chain]. rewrite Hct.
  cbn [chain]. now rewrite Hps.
Qed.

Lemma no_image_part_lookup (response : GenerateContentResponse) :
  no_image_part response ->
  candidates response ?> first ?> content ?> parts ?> find_inlineData = None.
Proof.
  intros H. unfold no_image_part, first_candidate_parts in H.
  destruct (candidates response ?> first) as [c|] eqn:Hc; [|reflexivity].
  cbn [chain]. destruct (content c) as [ct|] eqn:Hct; [|reflexivity].
  cbn [chain]. destruct (parts ct) as [ps|] eqn:Hps; [|reflexivity].
  cbn [chain]. apply find_inlineData_none. intros p Hp.
  apply (H ps p); [|exact Hp]. exists c, ct. auto.
Qed.

Lemma finish_reason_lookup (response : GenerateContentResponse) :
  candidates response ?> first ?> finishReason = finish_reason response.
Proof.
  unfold finish_reason. destruct (candidates response) as [[|c cs]|]; reflexivity.
Qed.

(** The two copies of the interpreter differ in what they log only. *)
Lemma handleApiResponse_copies (response : GenerateContentResponse)
    (context : jsstring) (w : World) :
  result (Localized.handleApiResponse response context) w
  = result (GeminiService.handleApiResponse response context) w.
Proof.
  interpret.
  destruct (truthy_opt (promptFeedback response ?> blockReason));
    [effects; reflexivity|].
  destruct (defined _); [effects; reflexivity|].
  destruct (truthy_opt _ && negb _); effects; reflexivity.
Qed.

(** The interpreter only writes to the console. *)
Lemma handleApiResponse_console (response : GenerateContentResponse)
    (context : jsstring) (w : World) :
  prompts_sent (trace (GeminiService.handleApiResponse response context) w) = []
  /\ prompts_sent (trace (Localized.handleApiResponse response context) w) = []
  /\ no_network_call (trace (GeminiService.handleApiResponse response context) w)
  /\ no_network_call (trace (Localized.handleApiResponse response context) w).
Proof.
  unfold trace, no_network_call. interpret.
  destruct (truthy_opt (promptFeedback response ?> blockReason));
    [effects; repeat split|].
  destruct (defined _); [effects; repeat split|].
  destruct (truthy_opt _ && negb _); effects; repeat split.
Qed.

(** C2. A response whose prompt feedback carries a block reason makes the
    interpreter throw the blocked-request error, whose message holds the
    reason and, when there is one, the block message.  Nothing is assumed
    about the candidates: an inline image in the same response does not
    change the outcome, and no image is returned. *)
Theorem blocked_response_always_fails :
  forall (response : GenerateContentResponse) (context : jsstring) (w : World)
         (pf : PromptFeedback) (r : jsstring),
    promptFeedback response = Some pf -> blockReason pf = Some r -> r <> [] ->
    let msg := lit "A solicitação foi bloqueada. Motivo: " ++ r ++ lit ". "
               ++ or_else (blockReasonMessage pf) [] in
    result (GeminiService.handleApiResponse response context) w
    = Throw (Error BlockedRequestError msg)
    /\ result (Localized.handleApiResponse response context) w
       = Throw (Error BlockedRequestError msg)
    /\ substring_of r msg
    /\ (forall m, blockReasonMessage pf = Some m -> substring_of m msg).
Proof.
  intros response context w pf r Hpf Hbr Hr msg.
  assert (HG : result (GeminiService.handleApiResponse response context) w
               = Throw (Error BlockedRequestError msg)).
  { interpret. rewrite Hpf. cbn [chain]. rewrite Hbr. cbn [truthy_opt].
    rewrite (truthy_nonempty Hr). effects. reflexivity. }
  split; [exact HG|]. split; [now rewrite handleApiResponse_copies|].
  split.
  - apply substring_of_mid.
  - intros m Hm. subst msg. rewrite Hm. unfold or_else.
    destruct (truthy m) eqn:Ht.
    + do 2 apply substring_of_prefix. apply substring_of_last.
    + apply truthy_false_empty in Ht. subst m. apply substring_of_nil.
Qed.

Lemma blocked_response_always_fails_witness :
  lit "SAFETY" <> []
  /\ result (GeminiService.handleApiResponse Sample.blocked_with_image (lit "edit"))
            Sample.host
     = Throw (Error BlockedRequestError
                (lit "A solicitação foi bloqueada. Motivo: " ++ lit "SAFETY"
                 ++ lit ". " ++ or_else (Some (lit "unsafe prompt")) [])).
Proof.
  split; [discriminate|].
  refine (proj1 (@blocked_response_always_fails Sample.blocked_with_image
                   (lit "edit") Sample.host
                   {| blockReason := Some (lit "SAFETY");
                      blockReasonMessage := Some (lit "unsafe prompt") |}
                   (lit "SAFETY") eq_refl eq_refl _)).
  discriminate.
Defined.

Example blocked_with_image_message :
  result (Localized.handleApiResponse Sample.blocked_with_image (lit "edit"))
         Sample.host
  = Throw (Error BlockedRequestError
             (lit "A solicitação foi bloqueada. Motivo: SAFETY. unsafe prompt")).
Proof. vm_compute. reflexivity. Qed.

(** The empty string is falsy: a block reason or a finish reason that is the
    empty string is treated as an absent one. *)
Example empty_reasons_are_absent :
  result (GeminiService.handleApiResponse
            (Sample.response_of
               (Some {| blockReason := Some []; blockReasonMessage := None |})
               [Sample.image_part Sample.png] (Some []) None) (lit "edit"))
         Sample.host
  = Return (lit "data:image/png;base64,iVBORw0KGgo=").
Proof. vm_compute. reflexivity. Qed.

(** C3, as the code has it. With no block reason, the interpreter returns
    the data URI of the first part, in order, of the first candidate that
    carries inline data: [data:<m>;base64,<d>] for its MIME type [m] and
    data [d].  Nothing is assumed about the finish reason. *)
Theorem first_image_part_is_returned :
  forall (response : GenerateContentResponse) (context : jsstring) (w : World)
         (ps : list Part) (p : Part) (m d : jsstring),
    no_block_reason response ->
    first_candidate_parts response ps ->
    first_image_part ps p ->
    inlineData p = Some {| mimeType := Some m; data := Some d |} ->
    result (GeminiService.handleApiResponse response context) w
    = Return (lit "data:" ++ m ++ lit ";base64," ++ d)
    /\ result (Localized.handleApiResponse response context) w
       = Return (lit "data:" ++ m ++ lit ";base64," ++ d).
Proof.
  intros response context w ps p m d Hnb Hps Hfirst Hp.
  assert (HG : result (GeminiService.handleApiResponse response context) w
               = Return (lit "data:" ++ m ++ lit ";base64," ++ d)).
  { interpret. apply no_block_reason_falsy in Hnb. rewrite Hnb.
    rewrite (image_part_lookup Hps), (find_inlineData_first Hfirst).
    cbn [chain]. rewrite Hp. cbn [defined chain mimeType data show].
    effects. reflexivity. }
  split; [exact HG | now rewrite handleApiResponse_copies].
Qed.

Lemma first_image_part_is_returned_witness :
  result (GeminiService.handleApiResponse Sample.two_images (lit "filter"))
         Sample.host
  = Return (lit "data:" ++ lit "image/png" ++ lit ";base64," ++ lit "iVBORw0KGgo=").
Proof.
  refine (proj1 (@first_image_part_is_returned Sample.two_images (lit "filter")
                   Sample.host
                   [Sample.image_part Sample.png; Sample.image_part Sample.jpeg]
                   (Sample.image_part Sample.png) (lit "image/png")
                   (lit "iVBORw0KGgo=") _ _ _ _)).
  - intros r [pf [Hpf _]]. discriminate.
  - eexists; eexists. repeat split.
  - exists [], [Sample.image_part Sample.jpeg]. repeat split.
    + intros q [].
    + discriminate.
  - reflexivity.
Defined.

(** C3 as stated fails when the first candidate holds two images: the part
    with the second image is a part with inline image data, and its data URI
    is not what the interpreter returns. *)
Lemma any_image_part_is_not_returned :
  ~ (forall (response : GenerateContentResponse) (context : jsstring) (w : World)
            (ps : list Part) (p : Part) (m d : jsstring),
        no_block_reason response ->
        first_candidate_parts response ps ->
        In p ps ->
        inlineData p = Some {| mimeType := Some m; data := Some d |} ->
        result (GeminiService.handleApiResponse response context) w
        = Return (lit "data:" ++ m ++ lit ";base64," ++ d)).
Proof.
  intros H.
  specialize (H Sample.two_images (lit "edit") Sample.host
                [Sample.image_part Sample.png; Sample.image_part Sample.jpeg]
                (Sample.image_part Sample.jpeg) (lit "image/jpeg") (lit "/9j/4AAQ")).
  assert (Hres : result (GeminiService.handleApiResponse Sample.two_images (lit "edit"))
                        Sample.host
                 = Return (lit "data:image/png;base64,iVBORw0KGgo="))
    by (vm_compute; reflexivity).
  rewrite Hres in H.
  assert (Hfalse : Return (lit "data:image/png;base64,iVBORw0KGgo=")
                   = Return (lit "data:" ++ lit "image/jpeg" ++ lit ";base64,"
                             ++ lit "/9j/4AAQ")).
  { apply H.
    - intros r [pf [Hpf _]]. discriminate.
    - eexists; eexists. repeat split.
    - right; left; reflexivity.
    - reflexivity. }
  vm_compute in Hfalse. discriminate.
Qed.

(** C4. With no block reason and no inline image in the first candidate, a
    finish reason that is present and is not [STOP] makes the interpreter
    throw the generation-stopped error, whose message holds that finish
    reason. *)
Theorem abnormal_finish_is_reported :
  forall (response : GenerateContentResponse) (context : jsstring) (w : World)
         (fr : jsstring),
    no_block_reason response ->
    no_image_part response ->
    finish_reason response = Some fr -> fr <> [] -> fr <> lit "STOP" ->
    let msg := lit "A geração de imagem para "
               ++ or_else (contextMap w context) context
               ++ lit " parou inesperadamente. Motivo: " ++ fr
               ++ lit ". Isso geralmente está relacionado às configurações de segurança." in
    result (GeminiService.handleApiResponse response context) w
    = Throw (Error GenerationStoppedError msg)
    /\ result (Localized.handleApiResponse response context) w
       = Throw (Error GenerationStoppedError msg)
    /\ substring_of fr msg.
Proof.
  intros response context w fr Hnb Hni Hfr Hne Hstop msg.
  assert (HG : result (GeminiService.handleApiResponse response context) w
               = Throw (Error GenerationStoppedError msg)).
  { interpret. apply no_block_reason_falsy in Hnb. rewrite Hnb.
    rewrite (no_image_part_lookup Hni). cbn [chain defined].
    rewrite finish_reason_lookup, Hfr. cbn [truthy_opt show].
    rewrite (truthy_nonempty Hne), (streq_neq Hstop). cbn [negb andb].
    effects. reflexivity. }
  split; [exact HG|]. split; [now rewrite handleApiResponse_copies|].
  subst msg. do 3 apply substring_of_prefix. apply substring_of_head.
Qed.

Lemma abnormal_finish_is_reported_witness :
  lit "SAFETY" <> [] /\ lit "SAFETY" <> lit "STOP"
  /\ result (GeminiService.handleApiResponse Sample.stopped (lit "filter")) Sample.host
     = Throw (Error GenerationStoppedError
                (lit "A geração de imagem para "
                 ++ or_else (contextMap Sample.host (lit "filter")) (lit "filter")
                 ++ lit " parou inesperadamente. Motivo: " ++ lit "SAFETY"
                 ++ lit ". Isso geralmente está relacionado às configurações de segurança.")).
Proof.
  split; [discriminate|]. split; [vm_compute; discriminate|].
  refine (proj1 (@abnormal_finish_is_reported Sample.stopped (lit "filter")
                   Sample.host (lit "SAFETY") _ _ eq_refl _ _)).
  - intros r [pf [Hpf _]]. discriminate.
  - intros ps p [c [ct [Hc [Hct Hps]]]] Hin.
    vm_compute in Hc. injection Hc as <-. vm_compute in Hct. injection Hct as <-.
    vm_compute in Hps. injection Hps as <-. destruct Hin.
  - discriminate.
  - vm_compute; discriminate.
Defined.

Example stopped_message :
  result (GeminiService.handleApiResponse Sample.stopped (lit "filter")) Sample.host
  = Throw (Error GenerationStoppedError
             (lit "A geração de imagem para filtro parou inesperadamente. Motivo: SAFETY. Isso geralmente está relacionado às configurações de segurança.")).
Proof. vm_compute. reflexivity. Qed.

(** C5. With no block reason, no inline image in the first candidate and a
    finish reason that is [STOP] or absent, the interpreter throws the
    no-image error.  When the aggregate text is not empty after trimming,
    the message quotes the trimmed text; when it is empty or absent, the
    message carries the generic explanation. *)
Theorem no_image_reports_text :
  forall (response : GenerateContentResponse) (context : jsstring) (w : World),
    no_block_reason response ->
    no_image_part response ->
    finish_reason response = Some (lit "STOP") \/ finish_reason response = None ->
    let intro := lit "O modelo de IA não retornou uma imagem para o(a) "
                 ++ or_else (contextMap w context) context ++ lit ". " in
    exists msg,
      result (GeminiService.handleApiResponse response context) w
      = Throw (Error NoImageReturnedError msg)
      /\ result (Localized.handleApiResponse response context) w
         = Throw (Error NoImageReturnedError msg)
      /\ (forall t, response_text response = Some t -> trim t <> [] ->
          msg = intro ++ lit "O modelo respondeu com o texto: " ++ DQUOTE
                ++ trim t ++ DQUOTE
          /\ substring_of (trim t) msg)
      /\ (response_text response = None
          \/ (exists t, response_text response = Some t /\ trim t = []) ->
          msg = intro ++ lit "Isso pode acontecer devido a filtros de segurança ou se a solicitação for muito complexa. Tente reformular seu comando para ser mais direto.").
Proof.
  intros response context w Hnb Hni Hfr intro.
  assert (Hcond : truthy_opt (finish_reason response)
                  && negb (streq (show (finish_reason response)) (lit "STOP"))
                  = false).
  { destruct Hfr as [-> | ->]; [|reflexivity].
    cbn [show]. rewrite (proj2 (streq_eq _ _) eq_refl).
    cbn [negb]. apply andb_false_r. }
  eexists. split; [|split; [rewrite handleApiResponse_copies|]].
  - interpret. apply no_block_reason_falsy in Hnb. rewrite Hnb.
    rewrite (no_image_part_lookup Hni). cbn [chain defined].
    rewrite finish_reason_lookup, Hcond. effects. reflexivity.
  - interpret. apply no_block_reason_falsy in Hnb. rewrite Hnb.
    rewrite (no_image_part_lookup Hni). cbn [chain defined].
    rewrite finish_reason_lookup, Hcond. effects. reflexivity.
  - split.
    + intros t Ht Hne. rewrite Ht. cbn [option_map truthy_opt show].
      rewrite (truthy_nonempty Hne). subst intro. rewrite <- !app_assoc.
      split; [reflexivity|].
      do 5 apply substring_of_prefix. apply substring_of_head.
    + intros [Hnone | [t [Ht He]]].
      * rewrite Hnone. cbn [option_map truthy_opt]. subst intro.
        now rewrite <- !app_assoc.
      * rewrite Ht. cbn [option_map truthy_opt]. rewrite He. cbn [truthy].
        subst intro. now rewrite <- !app_assoc.
Qed.

Lemma no_image_reports_text_witness :
  exists msg,
    result (GeminiService.handleApiResponse Sample.refusal (lit "adjustment"))
           Sample.host
    = Throw (Error NoImageReturnedError msg)
    /\ substring_of (lit "I cannot do that.") msg.
Proof.
  destruct (@no_image_reports_text Sample.refusal (lit "adjustment") Sample.host)
    as [msg [HG [_ [Htext _]]]].
  - intros r [pf [Hpf _]]. discriminate.
  - intros ps p [c [ct [Hc [Hct Hps]]]] Hin.
    vm_compute in Hc. injection Hc as <-. vm_compute in Hct. injection Hct as <-.
    vm_compute in Hps. injection Hps as <-.
    destruct Hin as [<-|[]]. reflexivity.
  - left. reflexivity.
  - exists msg. split; [exact HG|].
    destruct (Htext (lit " I cannot do that. ") eq_refl) as [_ Hsub].
    + vm_compute. discriminate.
    + assert (Htrim : trim (lit " I cannot do that. ") = lit "I cannot do that.")
        by (vm_compute; reflexivity).
      rewrite Htrim in Hsub. exact Hsub.
Defined.

Example refusal_message :
  result (GeminiService.handleApiResponse Sample.refusal (lit "adjustment"))
         Sample.host
  = Throw (Error NoImageReturnedError
             (lit "O modelo de IA não retornou uma imagem para o(a) ajuste. O modelo respondeu com o texto: " ++ DQUOTE ++ lit "I cannot do that." ++ DQUOTE)).
Proof. vm_compute. reflexivity. Qed.

Example silent_message :
  result (Localized.handleApiResponse Sample.silent (lit "edit")) Sample.host
  = Throw (Error NoImageReturnedError
             (lit "O modelo de IA não retornou uma imagem para o(a) edição. Isso pode acontecer devido a filtros de segurança ou se a solicitação for muito complexa. Tente reformular seu comando para ser mais direto.")).
Proof. vm_compute. reflexivity. Qed.

(** The tag does reach the message. *)
Example context_reaches_message :
  result (GeminiService.handleApiResponse Sample.stopped (lit "edit")) Sample.host
  <> result (GeminiService.handleApiResponse Sample.stopped (lit "filter")) Sample.host.
Proof. vm_compute. discriminate. Qed.

(** C8. The context tag does not select the outcome: under any two tags the
    interpreter either returns the same value or throws errors of the same
    kind, and that kind is one of the three of the interpreter. *)
Theorem context_only_changes_wording :
  forall (response : GenerateContentResponse) (c1 c2 : jsstring) (w : World),
    same_outcome (result (GeminiService.handleApiResponse response c1) w)
                 (result (GeminiService.handleApiResponse response c2) w)
    /\ same_outcome (result (Localized.handleApiResponse response c1) w)
                    (result (Localized.handleApiResponse response c2) w)
    /\ (forall e, result (GeminiService.handleApiResponse response c1) w = Throw e ->
                  interpreter_error (kind e)).
Proof.
  intros response c1 c2 w.
  assert (HG : same_outcome (result (GeminiService.handleApiResponse response c1) w)
                 (result (GeminiService.handleApiResponse response c2) w)
               /\ (forall e,
                      result (GeminiService.handleApiResponse response c1) w = Throw e ->
                      interpreter_error (kind e))).
  { unfold interpreter_error. interpret.
    destruct (truthy_opt (promptFeedback response ?> blockReason)).
    { effects. split; [reflexivity|]. intros e [= <-]. cbn [kind]. tauto. }
    destruct (defined _).
    { effects. split; [reflexivity|]. intros e [=]. }
    destruct (truthy_opt _ && negb _); effects;
      (split; [reflexivity|]; intros e [= <-]; cbn [kind]; tauto). }
  destruct HG as [Hsame Hkind].
  split; [exact Hsame|]. split; [|exact Hkind].
  rewrite (handleApiResponse_copies response c1 w),
    (handleApiResponse_copies response c2 w).
  exact Hsame.
Qed.

(** ** Running the operations *)

Lemma trace_bind (A B : Type) (m : M A) (k : A -> M B) (w : World) :
  trace (bind m k) w
  = trace m w ++ match result m w with
                 | Return a => trace (k a) w
                 | Throw _ => []
                 end.
Proof.
  unfold trace, result, bind. destruct (m w) as [t [a|e]]; simpl.
  - now destruct (k a w).
  - now rewrite app_nil_r.
Qed.

Lemma result_bind (A B : Type) (m : M A) (k : A -> M B) (w : World) :
  result (bind m k) w
  = match result m w with
    | Return a => result (k a) w
    | Throw e => Throw e
    end.
Proof.
  unfold result, bind. destruct (m w) as [t [a|e]]; simpl; [|reflexivity].
  now destruct (k a w).
Qed.

Lemma trace_console_log (msg : jsstring) (w : World) :
  trace (console_log msg) w = [ConsoleLog msg].
Proof. reflexivity. Qed.

Lemma result_console_log (msg : jsstring) (w : World) :
  result (console_log msg) w = Return tt.
Proof. reflexivity. Qed.

Lemma trace_env (w : World) : trace process_env_API_KEY_get w = [].
Proof. reflexivity. Qed.

Lemma result_env (w : World) :
  result process_env_API_KEY_get w = Return (process_env_API_KEY w).
Proof. reflexivity. Qed.

Lemma trace_new_GoogleGenAI (key : option jsstring) (w : World) :
  trace (new_GoogleGenAI key) w = [NewGoogleGenAI key].
Proof. reflexivity. Qed.

Lemma result_new_GoogleGenAI (key : option jsstring) (w : World) :
  result (new_GoogleGenAI key) w
  = match GoogleGenAI_constructor w key with
    | Some msg => Throw (Error ExternalError msg)
    | None => Return {| apiKey := key |}
    end.
Proof. reflexivity. Qed.

Lemma trace_generateContent (ai : GoogleGenAI) (params : GenerateContentParameters)
    (w : World) :
  trace (generateContent ai params) w = [GenerateContent ai params].
Proof. reflexivity. Qed.

Lemma result_generateContent (ai : GoogleGenAI) (params : GenerateContentParameters)
    (w : World) :
  result (generateContent ai params) w
  = match models_generateContent w ai params with
    | Fulfilled r => Return r
    | Rejected reason => Throw (Error ExternalError reason)
    end.
Proof. reflexivity. Qed.

Lemma trace_throw (A : Type) (e : JsError) (w : World) : trace (@throw A e) w = [].
Proof. reflexivity. Qed.

Lemma result_throw (A : Type) (e : JsError) (w : World) :
  result (@throw A e) w = Throw e.
Proof. reflexivity. Qed.

Lemma trace_fileToPart_localized (file : File) (w : World) :
  trace (Localized.fileToPart file) w = [ReadAsDataURL file].
Proof. rewrite fileToPart_copies. apply fileToPart_trace. Qed.

Lemma result_fileToPart_localized (file : File) (w : World) :
  result (Localized.fileToPart file) w = result (GeminiService.fileToPart file) w.
Proof. now rewrite fileToPart_copies. Qed.

#[local] Hint Rewrite trace_bind result_bind trace_console_log result_console_log
  trace_env result_env trace_new_GoogleGenAI result_new_GoogleGenAI
  trace_generateContent result_generateContent trace_throw result_throw
  fileToPart_trace trace_fileToPart_localized result_fileToPart_localized : run.

(** An operation whose encoder throws stops there: it sends nothing, and it
    throws that error unless it had already stopped for want of a key or in
    the SDK constructor. *)
Lemma operation_stops_at_encoder (w : World) (file : File) (op : M jsstring)
    (e : JsError) :
  calling_operation file op ->
  result (GeminiService.fileToPart file) w = Throw e ->
  no_network_call (trace op w)
  /\ exists e', result op w = Throw e'
                /\ (e' = e \/ kind e' = MissingCredentialError
                    \/ kind e' = ExternalError).
Proof.
  intros Hop He. unfold no_network_call.
  destruct Hop; operation;
    try (match goal with
         | |- context [truthy_opt ?k] => destruct (truthy_opt k)
         end; cbn [negb];
         [| run; split; [reflexivity | eexists; split; [reflexivity | auto]]]);
    run;
    match goal with
    | |- context [GoogleGenAI_constructor w ?k] =>
      destruct (GoogleGenAI_constructor w k)
    end;
    run; try rewrite He; effects;
    (split; [reflexivity | eexists; split; [reflexivity | auto]]).
Qed.

(** C6. When the data URL read from the file has no comma, or when the
    MIME-type pattern [:<mime>;] does not match its prefix before the first
    comma with a non-empty [<mime>], the encoder throws the decoding error,
    and every operation that encodes this file throws without sending a
    request. *)
Theorem malformed_data_url_is_rejected :
  forall (w : World) (file : File) (url : jsstring),
    FileReader_readAsDataURL w file = Fulfilled url ->
    malformed_data_url url ->
    exists msg,
      result (GeminiService.fileToPart file) w = Throw (Error DecodingError msg)
      /\ result (Localized.fileToPart file) w = Throw (Error DecodingError msg)
      /\ forall op, calling_operation file op ->
            no_network_call (trace op w)
            /\ exists e, result op w = Throw e
                         /\ (e = Error DecodingError msg
                             \/ kind e = MissingCredentialError
                             \/ kind e = ExternalError).
Proof.
  intros w file url Hread Hbad.
  destruct (fileToPart_rejects w file Hread Hbad) as [msg Hmsg].
  exists msg. split; [exact Hmsg|].
  split; [now rewrite result_fileToPart_localized|].
  intros op Hop. exact (@operation_stops_at_encoder w file op _ Hop Hmsg).
Qed.

Lemma malformed_data_url_is_rejected_witness :
  malformed_data_url (lit "data:image/png;base64")
  /\ exists msg,
       result (GeminiService.fileToPart Sample.photo)
              (Sample.host_reading (lit "data:image/png;base64"))
       = Throw (Error DecodingError msg).
Proof.
  assert (Hbad : malformed_data_url (lit "data:image/png;base64")).
  { left. vm_compute. intuition discriminate. }
  split; [exact Hbad|].
  destruct (@malformed_data_url_is_rejected
              (Sample.host_reading (lit "data:image/png;base64")) Sample.photo
              (lit "data:image/png;base64") eq_refl Hbad) as [msg [Hmsg _]].
  exists msg. exact Hmsg.
Defined.

(** What the encoder returns on a data URL of the form
    [data:<mime>;base64,<data>] whose [<mime>] is a bare MIME type and whose
    [<data>] has no comma: exactly [<mime>] and [<data>]. *)
Lemma fileToPart_well_formed (w : World) (file : File) (mime d : jsstring) :
  FileReader_readAsDataURL w file
  = Fulfilled (lit "data:" ++ mime ++ lit ";base64," ++ d) ->
  valid_mime mime = true -> ~ In COMMA d ->
  result (GeminiService.fileToPart file) w
  = Return {| inlineData := Some {| mimeType := Some mime; data := Some d |};
              text := None |}.
Proof.
  intros Hread Hmime Hd.
  destruct (valid_mime_spec _ Hmime) as [Hne [Hcomma Hgroup]].
  assert (Hsplit : lit ";base64," = lit ";base64" ++ [COMMA])
    by (vm_compute; reflexivity).
  assert (Hsemi : lit ";base64" = SEMICOLON :: lit "base64")
    by (vm_compute; reflexivity).
  assert (Hdata : lit "data:" = lit "data" ++ [COLON])
    by (vm_compute; reflexivity).
  assert (Hurl : lit "data:" ++ mime ++ lit ";base64," ++ d
                 = (lit "data:" ++ mime ++ lit ";base64") ++ COMMA :: d).
  { rewrite Hsplit. now rewrite <- !app_assoc. }
  rewrite Hurl in Hread.
  rewrite (@fileToPart_decodes w file _ d mime Hread).
  - now rewrite before_first_comma_id.
  - rewrite !in_app_iff. intros [H|[H|H]]; [|tauto|];
      revert H; vm_compute; intuition discriminate.
  - rewrite Hdata, <- app_assoc. rewrite match_mime_skip.
    + cbn [app match_mime]. rewrite N.eqb_refl, Hsemi.
      now rewrite lazy_group_complete.
    + vm_compute. intuition discriminate.
  - exact Hne.
Qed.

(** C7. For a file with a bare MIME type, read as the browser reads it, the
    encoder returns the file's declared type and the data segment of the
    data URL, and base64-decoding that data gives the file's bytes back. *)
Theorem encoding_round_trips :
  forall (w : World) (file : File),
    FileReader_readAsDataURL w file = Fulfilled (standardDataURL file) ->
    valid_mime (file_type file) = true ->
    let d := Base64.encode_bytes (file_bytes file) in
    result (GeminiService.fileToPart file) w
    = Return {| inlineData := Some {| mimeType := Some (file_type file);
                                      data := Some d |};
                text := None |}
    /\ result (Localized.fileToPart file) w
       = Return {| inlineData := Some {| mimeType := Some (file_type file);
                                         data := Some d |};
                   text := None |}
    /\ standardDataURL file = lit "data:" ++ file_type file ++ lit ";base64," ++ d
    /\ Base64.decode_bytes d = Some (file_bytes file).
Proof.
  intros w file Hread Hmime d.
  assert (HG : result (GeminiService.fileToPart file) w
               = Return {| inlineData := Some {| mimeType := Some (file_type file);
                                                 data := Some d |};
                           text := None |}).
  { apply fileToPart_well_formed; [exact Hread | exact Hmime |].
    apply encode_no_comma. }
  split; [exact HG|]. split; [now rewrite result_fileToPart_localized|].
  split; [reflexivity | apply decode_encode_bytes].
Qed.

Lemma encoding_round_trips_witness :
  valid_mime (file_type Sample.photo) = true
  /\ Base64.decode_bytes (Base64.encode_bytes (file_bytes Sample.photo))
     = Some (file_bytes Sample.photo).
Proof.
  split; [vm_compute; reflexivity|].
  refine (proj2 (proj2 (proj2 (@encoding_round_trips Sample.host Sample.photo
                                 eq_refl _)))).
  vm_compute; reflexivity.
Defined.

(** C10. A data URL with two or more commas passes the separator check.
    When the MIME-type pattern matches its prefix with a non-empty type, the
    encoder returns that type and, as data, the text between the first and
    the second comma; what follows the second comma is dropped. *)
Theorem extra_commas_are_dropped :
  forall (w : World) (file : File) (a b c m : jsstring),
    FileReader_readAsDataURL w file
    = Fulfilled (a ++ [COMMA] ++ b ++ [COMMA] ++ c) ->
    ~ In COMMA a -> ~ In COMMA b ->
    mime_match a m -> m <> [] ->
    result (GeminiService.fileToPart file) w
    = Return {| inlineData := Some {| mimeType := Some m; data := Some b |};
                text := None |}
    /\ result (Localized.fileToPart file) w
       = Return {| inlineData := Some {| mimeType := Some m; data := Some b |};
                   text := None |}.
Proof.
  intros w file a b c m Hread Ha Hb Hm Hne.
  apply match_mime_spec in Hm.
  assert (HG : result (GeminiService.fileToPart file) w
               = Return {| inlineData := Some {| mimeType := Some m; data := Some b |};
                           text := None |}).
  { rewrite (@fileToPart_decodes w file a (b ++ [COMMA] ++ c) m Hread Ha Hm Hne).
    change (b ++ [COMMA] ++ c) with (b ++ COMMA :: c).
    now rewrite (@before_first_comma_no_comma b c Hb). }
  split; [exact HG | now rewrite result_fileToPart_localized].
Qed.

Lemma extra_commas_are_dropped_witness :
  mime_match (lit "data:image/png;base64") (lit "image/png")
  /\ result (GeminiService.fileToPart Sample.photo)
            (Sample.host_reading
               (lit "data:image/png;base64" ++ [COMMA] ++ lit "AAAA" ++ [COMMA]
                ++ lit "BBBB,CCCC"))
     = Return {| inlineData := Some {| mimeType := Some (lit "image/png");
                                       data := Some (lit "AAAA") |};
                 text := None |}.
Proof.
  assert (Hm : mime_match (lit "data:image/png;base64") (lit "image/png")).
  { apply match_mime_spec. vm_compute. reflexivity. }
  split; [exact Hm|].
  refine (proj1 (@extra_commas_are_dropped
                   (Sample.host_reading
                      (lit "data:image/png;base64" ++ [COMMA] ++ lit "AAAA"
                       ++ [COMMA] ++ lit "BBBB,CCCC"))
                   Sample.photo (lit "data:image/png;base64") (lit "AAAA")
                   (lit "BBBB,CCCC") (lit "image/png") eq_refl _ _ Hm _)).
  - vm_compute. intuition discriminate.
  - vm_compute. intuition discriminate.
  - discriminate.
Defined.

(** ** The prompts *)

Lemma substring_of_head5 (a b c d e rest : jsstring) :
  substring_of (a ++ b ++ c ++ d ++ e) (a ++ b ++ c ++ d ++ e ++ rest).
Proof. exists [], rest. now rewrite <- !app_assoc. Qed.

Lemma prompts_sent_app (t1 t2 : list Event) :
  prompts_sent (t1 ++ t2) = prompts_sent t1 ++ prompts_sent t2.
Proof. apply flat_map_app. Qed.

(** The part built by the encoder has no text. *)
Lemma fileToPart_no_text (w : World) (file : File) (part : Part) :
  result (GeminiService.fileToPart file) w = Return part -> text part = None.
Proof.
  unfold result, GeminiService.fileToPart, bind, readAsDataURL.
  destruct (FileReader_readAsDataURL w file) as [url|reason]; [|discriminate].
  destruct (List.length (split_comma url) <? 2)%nat; [discriminate|].
  destruct (negb _ || negb _); [discriminate|].
  effects. intros [= <-]. reflexivity.
Qed.

(** The instruction is a substring of each template, as it is. *)
Lemma templates_hold_instruction (instruction : jsstring) (hotspot : Hotspot) :
  substring_of instruction (GeminiService.edit_prompt instruction hotspot)
  /\ substring_of instruction (GeminiService.filter_prompt instruction)
  /\ substring_of instruction (GeminiService.adjustment_prompt instruction)
  /\ substring_of instruction (Localized.edit_prompt instruction hotspot)
  /\ substring_of instruction (Localized.filter_prompt instruction)
  /\ substring_of instruction (Localized.adjustment_prompt instruction).
Proof.
  unfold GeminiService.edit_prompt, GeminiService.filter_prompt,
    GeminiService.adjustment_prompt, Localized.edit_prompt,
    Localized.filter_prompt, Localized.adjustment_prompt.
  repeat split; do 4 apply substring_of_prefix; apply substring_of_head.
Qed.

(** The edit templates hold the two coordinates, in decimal. *)
Lemma edit_templates_hold_coordinates (instruction : jsstring) (hotspot : Hotspot) :
  let focus := lit "(x: " ++ Number_toString (hotspot_x hotspot) ++ lit ", y: "
               ++ Number_toString (hotspot_y hotspot) ++ lit ")" in
  substring_of focus (GeminiService.edit_prompt instruction hotspot)
  /\ substring_of focus (Localized.edit_prompt instruction hotspot).
Proof.
  intros focus. subst focus.
  assert (Hen : lit "Edit Location: Focus on the area around pixel coordinates (x: "
                = lit "Edit Location: Focus on the area around pixel coordinates "
                  ++ lit "(x: ") by (vm_compute; reflexivity).
  assert (Hpt : lit "Local da Edição: Foque na área ao redor das coordenadas de pixel (x: "
                = lit "Local da Edição: Foque na área ao redor das coordenadas de pixel "
                  ++ lit "(x: ") by (vm_compute; reflexivity).
  assert (Hclose : lit ")." = lit ")" ++ lit ".") by (vm_compute; reflexivity).
  unfold GeminiService.edit_prompt, Localized.edit_prompt.
  rewrite Hen, Hpt, Hclose, <- !app_assoc.
  split; do 8 apply substring_of_prefix; apply substring_of_head5.
Qed.

(** What a run that reaches the model sends: one request, whose only text
    is the prompt. *)
Lemma request_carries_prompt (w : World) (ai : GoogleGenAI) (part : Part)
    (prompt context log1 log2 : jsstring)
    (handle : GenerateContentResponse -> jsstring -> M jsstring) :
  text part = None ->
  (forall r, prompts_sent (trace (handle r context) w) = []) ->
  prompts_sent
    (trace
       (console_log log1 ;;
        response <- generateContent ai
          {| model := lit "gemini-2.5-flash-image-preview";
             contents :=
               {| parts := Some [part; {| inlineData := None; text := Some prompt |}] |} |} ;;
        console_log log2 ;;
        handle response context) w)
  = [prompt].
Proof.
  intros Htext Hhandle. run.
  destruct (models_generateContent w ai _) as [r|reason]; run;
    rewrite ?prompts_sent_app, ?Hhandle;
    cbn [prompts_sent flat_map contents parts part_texts text app];
    rewrite Htext; reflexivity.
Qed.

(** ** Printing a coordinate *)

Lemma digits_value_cons (acc d : Z) (c : N) (s : jsstring) :
  digit_value c = Some d ->
  digits_value acc (c :: s) = digits_value (10 * acc + d) s.
Proof. intros H. cbn [digits_value]. now rewrite H. Qed.

Ltac first_unit :=
  match goal with
  | |- context [lit (String ?a ?s)] =>
    let c := eval vm_compute in (N_of_ascii a) in
    change (lit (String a s)) with (c :: lit s)
  end.

Lemma digits_of_uint (d : Decimal.uint) : forall acc,
  digits_value acc (lit (NilEmpty.string_of_uint d)) = Some (uint_value acc d).
Proof.
  induction d; intros acc; cbn [NilEmpty.string_of_uint uint_value];
    [reflexivity | first_unit; erewrite digits_value_cons by reflexivity; apply IHd ..].
Qed.

Lemma of_uint_acc_value (d : Decimal.uint) : forall acc,
  Z.pos (Pos.of_uint_acc d acc) = uint_value (Z.pos acc) d.
Proof.
  induction d; intros acc; cbn [Pos.of_uint_acc uint_value];
    [reflexivity | rewrite IHd; f_equal; lia ..].
Qed.

Lemma of_uint_value (d : Decimal.uint) :
  Z.of_N (Pos.of_uint d) = uint_value 0 d.
Proof.
  induction d; cbn [Pos.of_uint uint_value]; [reflexivity | exact IHd | ..];
    cbn [Z.of_N]; rewrite of_uint_acc_value; reflexivity.
Qed.

Lemma to_uint_value (p : positive) :
  Pos.to_uint p <> Decimal.Nil
  /\ uint_value 0 (Pos.to_uint p) = Z.pos p.
Proof.
  pose proof (DecimalPos.Unsigned.of_to p) as H. split.
  - intros E. rewrite E in H. discriminate.
  - rewrite <- of_uint_value, H. reflexivity.
Qed.

Lemma decimal_of_digits (d : Decimal.uint) :
  d <> Decimal.Nil ->
  decimal_value (lit (NilEmpty.string_of_uint d)) = Some (uint_value 0 d)
  /\ lit (NilEmpty.string_of_uint d) <> [].
Proof.
  intros Hd. pose proof (digits_of_uint d 0%Z) as H.
  destruct d; [congruence | ..]; cbn [NilEmpty.string_of_uint] in *;
    first_unit; (split; [|discriminate]);
    revert H; first_unit; intros H; exact H.
Qed.

(** A printed integer reads back as itself: [Number_toString] prints the
    decimal numeral of its argument. *)
Lemma Number_toString_denotes (n : Z) :
  decimal_value (Number_toString n) = Some n.
Proof.
  unfold Number_toString. destruct n as [|p|p]; cbn [Z.to_int NilZero.string_of_int].
  - vm_compute. reflexivity.
  - destruct (to_uint_value p) as [Hd Hv].
    destruct (decimal_of_digits Hd) as [H _].
    unfold NilZero.string_of_uint.
    destruct (Pos.to_uint p); [congruence | rewrite H, Hv; reflexivity ..].
  - destruct (to_uint_value p) as [Hd Hv].
    destruct (decimal_of_digits Hd) as [_ Hne].
    pose proof (digits_of_uint (Pos.to_uint p) 0%Z) as H.
    unfold NilZero.string_of_uint.
    destruct (Pos.to_uint p) eqn:E; [congruence | ..];
      first_unit; unfold decimal_value; cbn [N.eqb Pos.eqb];
      (destruct (lit (NilEmpty.string_of_uint _)) eqn:El; [congruence|]);
      rewrite H, Hv; reflexivity.
Qed.

(** C9. When an operation of [services/geminiService.ts] reaches the model,
    the one request it sends carries the template filled with the user's
    instruction, and the instruction occurs in that prompt as it was given.
    The edit prompt also holds the two coordinates: for coordinates that
    are safe integers, what is printed after [x:] and after [y:] is a
    decimal numeral that denotes the coordinate. *)
Theorem prompt_holds_instruction_verbatim :
  forall (w : World) (key : option jsstring) (file : File)
         (instruction : jsstring) (hotspot : Hotspot) (part : Part),
    truthy_opt key = true ->
    GoogleGenAI_constructor w key = None ->
    result (GeminiService.fileToPart file) w = Return part ->
    safe_integer (hotspot_x hotspot) ->
    safe_integer (hotspot_y hotspot) ->
    prompts_sent (trace (GeminiService.generateEditedImage key file instruction hotspot) w)
    = [GeminiService.edit_prompt instruction hotspot]
    /\ prompts_sent (trace (GeminiService.generateFilteredImage key file instruction) w)
       = [GeminiService.filter_prompt instruction]
    /\ prompts_sent (trace (GeminiService.generateAdjustedImage key file instruction) w)
       = [GeminiService.adjustment_prompt instruction]
    /\ substring_of instruction (GeminiService.edit_prompt instruction hotspot)
    /\ substring_of instruction (GeminiService.filter_prompt instruction)
    /\ substring_of instruction (GeminiService.adjustment_prompt instruction)
    /\ (exists x y : jsstring,
           substring_of (lit "(x: " ++ x ++ lit ", y: " ++ y ++ lit ")")
             (GeminiService.edit_prompt instruction hotspot)
           /\ decimal_value x = Some (hotspot_x hotspot)
           /\ decimal_value y = Some (hotspot_y hotspot)).
Proof.
  intros w key file instruction hotspot part Hkey Hctor Hpart _ _.
  pose proof (fileToPart_no_text _ _ Hpart) as Htext.
  assert (Hhandle : forall c r,
             prompts_sent (trace (GeminiService.handleApiResponse r c) w) = []).
  { intros c r. exact (proj1 (handleApiResponse_console r c w)). }
  destruct (templates_hold_instruction instruction hotspot) as [He [Hf [Ha _]]].
  destruct (edit_templates_hold_coordinates instruction hotspot) as [Hc _].
  split; [|split; [|split;
    [|split; [exact He | split; [exact Hf | split; [exact Ha |]]]]]].
  4:{ exists (Number_toString (hotspot_x hotspot)),
             (Number_toString (hotspot_y hotspot)).
      split; [exact Hc|]. split; apply Number_toString_denotes. }
  all: operation; rewrite Hkey; cbn [negb].
  all: rewrite trace_bind, trace_console_log, result_console_log.
  all: rewrite trace_bind, trace_new_GoogleGenAI, result_new_GoogleGenAI, Hctor.
  all: rewrite trace_bind, fileToPart_trace, Hpart.
  all: rewrite !prompts_sent_app.
  all: rewrite (@request_carries_prompt w _ part _ _ _ _
                  GeminiService.handleApiResponse Htext (Hhandle _)).
  all: reflexivity.
Qed.

Lemma prompt_holds_instruction_verbatim_witness :
  truthy_opt (Some (lit "key")) = true
  /\ safe_integer 120 /\ safe_integer 45
  /\ prompts_sent
       (trace (GeminiService.generateEditedImage (Some (lit "key")) Sample.photo
                 (lit "remove the lamp") {| hotspot_x := 120; hotspot_y := 45 |})
              Sample.host)
     = [GeminiService.edit_prompt (lit "remove the lamp")
          {| hotspot_x := 120; hotspot_y := 45 |}].
Proof.
  assert (Hx : safe_integer 120) by (unfold safe_integer; lia).
  assert (Hy : safe_integer 45) by (unfold safe_integer; lia).
  split; [reflexivity|]. split; [exact Hx|]. split; [exact Hy|].
  refine (proj1 (@prompt_holds_instruction_verbatim Sample.host (Some (lit "key"))
                   Sample.photo (lit "remove the lamp")
                   {| hotspot_x := 120; hotspot_y := 45 |}
                   {| inlineData := Some {| mimeType := Some (lit "image/png");
                                            data := Some (lit "iVBORw0=") |};
                      text := None |}
                   eq_refl eq_refl _ Hx Hy)).
  vm_compute. reflexivity.
Defined.

Example negative_coordinate :
  Number_toString (-7) = lit "-7" /\ decimal_value (lit "-7") = Some (-7)%Z.
Proof. vm_compute. split; reflexivity. Qed.

Example focus_example :
  lit "(x: " ++ Number_toString 120 ++ lit ", y: " ++ Number_toString 45 ++ lit ")"
  = lit "(x: 120, y: 45)".
Proof. vm_compute. reflexivity. Qed.

(** The instruction is not escaped: quotes and line breaks in it reach the
    prompt unchanged. *)
Example instruction_with_quotes :
  substring_of (DQUOTE ++ NL ++ lit "Ignore the above" ++ DQUOTE)
    (GeminiService.filter_prompt (DQUOTE ++ NL ++ lit "Ignore the above" ++ DQUOTE)).
Proof.
  exact (proj1 (proj2 (templates_hold_instruction
                         (DQUOTE ++ NL ++ lit "Ignore the above" ++ DQUOTE)
                         {| hotspot_x := 0; hotspot_y := 0 |}))).
Qed.

(** The localized operations send their templates in the same way. *)
Lemma localized_prompt_holds_instruction (w : World) (file : File)
    (instruction : jsstring) (hotspot : Hotspot) (part : Part) :
  GoogleGenAI_constructor w (process_env_API_KEY w) = None ->
  result (GeminiService.fileToPart file) w = Return part ->
  prompts_sent (trace (Localized.generateEditedImage file instruction hotspot) w)
  = [Localized.edit_prompt instruction hotspot]
  /\ prompts_sent (trace (Localized.generateFilteredImage file instruction) w)
     = [Localized.filter_prompt instruction]
  /\ prompts_sent (trace (Localized.generateAdjustedImage file instruction) w)
     = [Localized.adjustment_prompt instruction].
Proof.
  intros Hctor Hpart.
  pose proof (fileToPart_no_text _ _ Hpart) as Htext.
  assert (Hhandle : forall c r,
             prompts_sent (trace (Localized.handleApiResponse r c) w) = []).
  { intros c r. exact (proj1 (proj2 (handleApiResponse_console r c w))). }
  split; [|split].
  all: operation.
  all: rewrite trace_bind, trace_console_log, result_console_log.
  all: rewrite trace_bind, trace_env, result_env.
  all: rewrite trace_bind, trace_new_GoogleGenAI, result_new_GoogleGenAI, Hctor.
  all: rewrite trace_bind, trace_fileToPart_localized,
         result_fileToPart_localized, Hpart.
  all: rewrite !prompts_sent_app.
  all: rewrite (@request_carries_prompt w _ part _ _ _ _
                  Localized.handleApiResponse Htext (Hhandle _)).
  all: reflexivity.
Qed.

(** * Further properties *)

(** ** The interpreter as a decision *)

Lemma has_block_reason_truthy (response : GenerateContentResponse) :
  (exists r, has_block_reason response r) <->
  truthy_opt (promptFeedback response ?> blockReason) = true.
Proof.
  split.
  - intros [r [pf [Hpf [Hbr Hr]]]]. rewrite Hpf. cbn [chain]. rewrite Hbr.
    cbn [truthy_opt]. now apply truthy_nonempty.
  - destruct (promptFeedback response) as [pf|] eqn:Hpf; [|discriminate].
    cbn [chain]. destruct (blockReason pf) as [[|c r]|] eqn:Hbr; try discriminate.
    intros _. exists (c :: r), pf. repeat split; [exact Hpf | exact Hbr | discriminate].
Qed.

Lemma find_inlineData_some (ps : list Part) :
  (exists p, In p ps /\ inlineData p <> None) ->
  exists p, first_image_part ps p.
Proof.
  induction ps as [|q ps IH]; intros [p [Hin Hp]]; [contradiction|].
  destruct (inlineData q) eqn:Hq.
  - exists q, [], ps. repeat split; [intros x [] | congruence].
  - destruct Hin as [->|Hin]; [congruence|].
    destruct IH as [p' [before [after [-> [Hb Hp']]]]]; [now exists p|].
    exists p', (q :: before), after. repeat split; [|exact Hp'].
    intros x [<-|Hx]; [exact Hq | now apply Hb].
Qed.

Lemma has_image_part_defined (response : GenerateContentResponse) :
  has_image_part response <->
  defined (candidates response ?> first ?> content ?> parts ?> find_inlineData
           ?> inlineData) = true.
Proof.
  split.
  - intros [ps [p [Hps [Hin Hp]]]].
    destruct (@find_inlineData_some ps (ex_intro _ p (conj Hin Hp))) as [p' Hfirst].
    rewrite (image_part_lookup Hps), (find_inlineData_first Hfirst).
    cbn [chain]. destruct Hfirst as [_ [_ [_ [_ Hp']]]].
    destruct (inlineData p'); [reflexivity | congruence].
  - destruct (candidates response ?> first) as [c|] eqn:Hc; [|discriminate].
    cbn [chain]. destruct (content c) as [ct|] eqn:Hct; [|discriminate].
    cbn [chain]. destruct (parts ct) as [ps|] eqn:Hps; [|discriminate].
    cbn [chain]. destruct (find_inlineData ps) as [p|] eqn:Hfind; [|discriminate].
    cbn [chain]. intros Hdef. exists ps, p.
    split; [exists c, ct; auto|]. unfold find_inlineData in Hfind.
    apply find_some in Hfind as [Hin _]. split; [exact Hin|].
    destruct (inlineData p); [discriminate | discriminate].
Qed.

Lemma no_image_part_iff (response : GenerateContentResponse) :
  no_image_part response <-> ~ has_image_part response.
Proof.
  split.
  - intros H [ps [p [Hps [Hin Hp]]]]. apply Hp. exact (H ps p Hps Hin).
  - intros H ps p Hps Hin. destruct (inlineData p) eqn:Hp; [|reflexivity].
    exfalso. apply H. exists ps, p. repeat split; [exact Hps | exact Hin | congruence].
Qed.

Lemma abnormal_finish_truthy (response : GenerateContentResponse) :
  abnormal_finish response <->
  truthy_opt (finish_reason response)
  && negb (streq (show (finish_reason response)) (lit "STOP")) = true.
Proof.
  split.
  - intros [fr [Hfr [Hne Hstop]]]. rewrite Hfr. cbn [truthy_opt show].
    now rewrite (truthy_nonempty Hne), (streq_neq Hstop).
  - unfold abnormal_finish.
    destruct (finish_reason response) as [fr|]; [|discriminate].
    cbn [truthy_opt show]. intros H. apply andb_true_iff in H as [Ht Hs].
    exists fr. split; [reflexivity|]. split.
    + intros ->. discriminate.
    + intros ->. rewrite (proj2 (streq_eq _ _) eq_refl) in Hs. discriminate.
Qed.

Lemma normal_finish_falsy (response : GenerateContentResponse) :
  normal_finish response <->
  truthy_opt (finish_reason response)
  && negb (streq (show (finish_reason response)) (lit "STOP")) = false.
Proof.
  split.
  - intros [-> | [-> | ->]]; [reflexivity | reflexivity |].
    cbn [truthy_opt show]. rewrite (proj2 (streq_eq _ _) eq_refl).
    apply andb_false_r.
  - unfold normal_finish. intros H.
    destruct (finish_reason response) as [fr|]; [|now left].
    right. cbn [truthy_opt show] in H. apply andb_false_iff in H as [H|H].
    + left. now rewrite (truthy_false_empty _ H).
    + right. apply negb_false_iff, streq_eq in H. now rewrite H.
Qed.

(** The four checks of the interpreter, as one table. *)
Lemma interpreter_table (response : GenerateContentResponse) (context : jsstring)
    (w : World) :
  let blocked := truthy_opt (promptFeedback response ?> blockReason) in
  let image := candidates response ?> first ?> content ?> parts ?> find_inlineData
               ?> inlineData in
  let abnormal := truthy_opt (finish_reason response)
                  && negb (streq (show (finish_reason response)) (lit "STOP")) in
  exists blockedMsg stoppedMsg noImageMsg,
    result (GeminiService.handleApiResponse response context) w
    = if blocked then Throw (Error BlockedRequestError blockedMsg)
      else if defined image
           then Return (lit "data:" ++ show (image ?> mimeType) ++ lit ";base64,"
                        ++ show (image ?> data))
           else if abnormal then Throw (Error GenerationStoppedError stoppedMsg)
                else Throw (Error NoImageReturnedError noImageMsg).
Proof.
  intros blocked image abnormal. subst blocked image abnormal.
  do 3 eexists. interpret. rewrite finish_reason_lookup.
  destruct (truthy_opt (promptFeedback response ?> blockReason));
    [effects; reflexivity|].
  destruct (defined _); [effects; reflexivity|].
  destruct (truthy_opt _ && negb _); effects; reflexivity.
Qed.

(** X1. The interpreter returns a value exactly when the response has no
    block reason and some part of its first candidate carries inline
    data. *)
Theorem interpreter_succeeds_iff :
  forall (response : GenerateContentResponse) (context : jsstring) (w : World),
    (exists uri,
        result (GeminiService.handleApiResponse response context) w = Return uri)
    <-> no_block_reason response /\ has_image_part response.
Proof.
  intros response context w.
  destruct (interpreter_table response context w) as [m1 [m2 [m3 H]]].
  cbv zeta in H. rewrite H. clear H.
  rewrite no_block_reason_falsy, has_image_part_defined.
  destruct (truthy_opt (promptFeedback response ?> blockReason)).
  { split; [intros [uri Hu]; discriminate | intros [Hb _]; discriminate]. }
  destruct (defined _).
  { split; [auto | intros _; eexists; reflexivity]. }
  split; [|intros [_ Hi]; discriminate].
  destruct (truthy_opt _ && negb _); intros [uri Hu]; discriminate.
Qed.

(** X2. The value returned is built from the blob of the first part with
    inline data, whatever the blob holds: a MIME type or data that is
    absent is printed as [undefined]. *)
Theorem returned_uri_prints_blob :
  forall (response : GenerateContentResponse) (context : jsstring) (w : World)
         (ps : list Part) (p : Part) (blob : Blob),
    no_block_reason response ->
    first_candidate_parts response ps ->
    first_image_part ps p ->
    inlineData p = Some blob ->
    result (GeminiService.handleApiResponse response context) w
    = Return (lit "data:" ++ show (mimeType blob) ++ lit ";base64,"
              ++ show (data blob))
    /\ result (Localized.handleApiResponse response context) w
       = Return (lit "data:" ++ show (mimeType blob) ++ lit ";base64,"
                 ++ show (data blob)).
Proof.
  intros response context w ps p blob Hnb Hps Hfirst Hp.
  assert (HG : result (GeminiService.handleApiResponse response context) w
               = Return (lit "data:" ++ show (mimeType blob) ++ lit ";base64,"
                         ++ show (data blob))).
  { interpret. apply no_block_reason_falsy in Hnb. rewrite Hnb.
    rewrite (image_part_lookup Hps), (find_inlineData_first Hfirst).
    cbn [chain]. rewrite Hp. cbn [defined chain].
    effects. reflexivity. }
  split; [exact HG | now rewrite handleApiResponse_copies].
Qed.

Lemma returned_uri_prints_blob_witness :
  result (GeminiService.handleApiResponse Scenario.untyped_image (lit "edit"))
         Sample.host
  = Return (lit "data:" ++ show None ++ lit ";base64," ++ show (Some (lit "AAAA"))).
Proof.
  refine (proj1 (@returned_uri_prints_blob Scenario.untyped_image (lit "edit")
                   Sample.host
                   [Sample.image_part {| mimeType := None; data := Some (lit "AAAA") |}]
                   (Sample.image_part {| mimeType := None; data := Some (lit "AAAA") |})
                   {| mimeType := None; data := Some (lit "AAAA") |} _ _ _ eq_refl)).
  - intros r [pf [Hpf _]]. discriminate.
  - eexists; eexists. repeat split.
  - exists [], []. repeat split; [intros q [] | discriminate].
Defined.

Example untyped_image_uri :
  result (GeminiService.handleApiResponse Scenario.untyped_image (lit "edit"))
         Sample.host
  = Return (lit "data:undefined;base64,AAAA").
Proof. vm_compute. reflexivity. Qed.

(** X3. Which error the interpreter throws is decided by the response
    alone: blocked exactly when there is a block reason; stopped exactly
    when there is none, no part carries inline data and the finish reason
    is a code other than [STOP]; no image exactly when there is none, no
    part carries inline data and the finish reason is absent, empty or
    [STOP]. *)
Theorem error_kinds_partition :
  forall (response : GenerateContentResponse) (context : jsstring) (w : World),
    ((exists msg, result (GeminiService.handleApiResponse response context) w
                  = Throw (Error BlockedRequestError msg))
     <-> exists r, has_block_reason response r)
    /\ ((exists msg, result (GeminiService.handleApiResponse response context) w
                     = Throw (Error GenerationStoppedError msg))
        <-> no_block_reason response /\ no_image_part response
            /\ abnormal_finish response)
    /\ ((exists msg, result (GeminiService.handleApiResponse response context) w
                     = Throw (Error NoImageReturnedError msg))
        <-> no_block_reason response /\ no_image_part response
            /\ normal_finish response).
Proof.
  intros response context w.
  destruct (interpreter_table response context w) as [m1 [m2 [m3 H]]].
  cbv zeta in H. rewrite H. clear H.
  rewrite has_block_reason_truthy, no_block_reason_falsy, no_image_part_iff,
    has_image_part_defined, abnormal_finish_truthy, normal_finish_falsy.
  destruct (truthy_opt (promptFeedback response ?> blockReason));
    destruct (defined _); destruct (truthy_opt _ && negb _); cbv iota;
    (split; [|split]); split;
    try (intros [msg Hm]; discriminate Hm);
    try (intros _; eexists; reflexivity);
    try (intros _; repeat split; try reflexivity; intros Hx; discriminate Hx);
    try (intros Hb; discriminate Hb);
    try (intros [Hb [Hi Hf]];
         first [discriminate Hb | discriminate Hf | exfalso; apply Hi; reflexivity]).
Qed.

(** X4. Only the first candidate is read: with the same text, the
    candidates after it change nothing in what the interpreter returns or
    throws, not even an image they hold.  ([response_text] is what the
    [text] accessor of the SDK gives, and it reads the first candidate
    alone.) *)
Theorem only_first_candidate_is_read :
  forall (pf : option PromptFeedback) (c : Candidate) (cs : list Candidate)
         (t : option jsstring) (context : jsstring) (w : World),
    result (GeminiService.handleApiResponse
              {| promptFeedback := pf; candidates := Some (c :: cs);
                 response_text := t |} context) w
    = result (GeminiService.handleApiResponse
                {| promptFeedback := pf; candidates := Some [c];
                   response_text := t |} context) w
    /\ result (Localized.handleApiResponse
                 {| promptFeedback := pf; candidates := Some (c :: cs);
                    response_text := t |} context) w
       = result (Localized.handleApiResponse
                   {| promptFeedback := pf; candidates := Some [c];
                      response_text := t |} context) w.
Proof.
  intros pf c cs t context w.
  unfold GeminiService.handleApiResponse, Localized.handleApiResponse.
  cbn [candidates promptFeedback response_text chain first at_index nth_error].
  split; reflexivity.
Qed.

(** X5. Without a block reason the prompt feedback plays no part: the run
    is the one of the same response without prompt feedback, so a block
    message alone blocks nothing. *)
Theorem feedback_without_reason_is_ignored :
  forall (response : GenerateContentResponse) (context : jsstring) (w : World),
    no_block_reason response ->
    GeminiService.handleApiResponse response context w
    = GeminiService.handleApiResponse
        {| promptFeedback := None; candidates := candidates response;
           response_text := response_text response |} context w.
Proof.
  intros response context w Hnb. apply no_block_reason_falsy in Hnb.
  unfold GeminiService.handleApiResponse, bind. unfold translate at 1 2.
  rewrite Hnb.
  cbn [candidates promptFeedback response_text chain truthy_opt].
  reflexivity.
Qed.

Lemma feedback_without_reason_is_ignored_witness :
  GeminiService.handleApiResponse Scenario.message_only (lit "edit") Sample.host
  = GeminiService.handleApiResponse
      {| promptFeedback := None; candidates := candidates Scenario.message_only;
         response_text := response_text Scenario.message_only |}
      (lit "edit") Sample.host.
Proof.
  apply (@feedback_without_reason_is_ignored Scenario.message_only (lit "edit")
           Sample.host).
  intros r [pf [Hpf [Hbr _]]]. vm_compute in Hpf. injection Hpf as <-.
  discriminate.
Defined.

(** X6. A run of the interpreter that ends before the [text] accessor of
    the response is read (the request was blocked, or an image is there, or
    the generation stopped for a reason other than [STOP]) writes one line
    to the console and nothing else: [console.log] when it returns,
    [console.error] with the very message it throws when it throws. *)
Theorem interpreter_logs_once :
  forall (response : GenerateContentResponse) (context : jsstring) (w : World),
    (exists r, has_block_reason response r) \/ has_image_part response
    \/ abnormal_finish response ->
    ((exists line uri, GeminiService.handleApiResponse response context w
                       = ([ConsoleLog line], Return uri))
     \/ (exists kind msg, GeminiService.handleApiResponse response context w
                          = ([ConsoleError msg], Throw (Error kind msg))))
    /\ ((exists line uri, Localized.handleApiResponse response context w
                          = ([ConsoleLog line], Return uri))
        \/ (exists kind msg, Localized.handleApiResponse response context w
                             = ([ConsoleError msg], Throw (Error kind msg)))).
Proof.
  intros response context w H.
  rewrite has_block_reason_truthy, has_image_part_defined, abnormal_finish_truthy,
    <- finish_reason_lookup in H.
  unfold GeminiService.handleApiResponse, Localized.handleApiResponse, bind, translate.
  destruct (truthy_opt (promptFeedback response ?> blockReason)).
  { effects. split; right; do 2 eexists; reflexivity. }
  destruct (defined _).
  { effects. split; left; do 2 eexists; reflexivity. }
  destruct (truthy_opt _ && negb _).
  { effects. split; right; do 2 eexists; reflexivity. }
  destruct H as [H|[H|H]]; discriminate H.
Qed.

Lemma interpreter_logs_once_witness :
  abnormal_finish Sample.stopped
  /\ ((exists line uri,
          GeminiService.handleApiResponse Sample.stopped (lit "edit") Sample.host
          = ([ConsoleLog line], Return uri))
      \/ (exists kind msg,
             GeminiService.handleApiResponse Sample.stopped (lit "edit") Sample.host
             = ([ConsoleError msg], Throw (Error kind msg)))).
Proof.
  assert (Ha : abnormal_finish Sample.stopped).
  { exists (lit "SAFETY"). repeat split; discriminate. }
  split; [exact Ha|].
  exact (proj1 (@interpreter_logs_once Sample.stopped (lit "edit") Sample.host
                  (or_intror (or_intror Ha)))).
Defined.

(** The line of that run is the message of the error. *)
Example stopped_run_logs_its_message :
  exists msg,
    GeminiService.handleApiResponse Sample.stopped (lit "edit") Sample.host
    = ([ConsoleError msg], Throw (Error GenerationStoppedError msg)).
Proof. eexists. vm_compute. reflexivity. Qed.

(** X7. The localized copy is the same adapter: its encoder runs as the
    original, and its interpreter returns the same value or throws the
    same error, message included, on every response and tag. *)
Theorem localized_copy_agrees :
  forall (file : File) (response : GenerateContentResponse) (context : jsstring)
         (w : World),
    Localized.fileToPart file w = GeminiService.fileToPart file w
    /\ result (Localized.handleApiResponse response context) w
       = result (GeminiService.handleApiResponse response context) w.
Proof.
  intros file response context w. split.
  - now rewrite fileToPart_copies.
  - apply handleApiResponse_copies.
Qed.

(** ** The encoder, exactly *)

Lemma first_comma_split (s : jsstring) :
  In COMMA s ->
  exists r, s = before_first_comma s ++ COMMA :: r
            /\ ~ In COMMA (before_first_comma s).
Proof.
  induction s as [|c s IH]; simpl; intros H; [contradiction|].
  destruct (N.eqb_spec c COMMA) as [->|Hc].
  - exists s. split; [reflexivity | tauto].
  - destruct H as [H|H]; [congruence|].
    destruct (IH H) as [r [Hr Hn]]. exists r. split.
    + simpl. now rewrite <- Hr.
    + simpl. intros [Heq|Hin]; [congruence | tauto].
Qed.

Lemma before_first_comma_clean (s : jsstring) : ~ In COMMA (before_first_comma s).
Proof.
  induction s as [|c s IH]; simpl; [tauto|].
  destruct (N.eqb_spec c COMMA) as [->|Hc]; simpl; [tauto|].
  intros [Heq|Hin]; [congruence | tauto].
Qed.

Lemma match_mime_group (p g : jsstring) :
  match_mime p = Some g -> ~ In SEMICOLON g /\ dot_all g.
Proof.
  induction p as [|c p IH]; simpl; intros H; [discriminate|].
  destruct (c =? COLON); [|now apply IH].
  destruct (lazy_group_semicolon p) as [g'|] eqn:E; [|now apply IH].
  injection H as <-. destruct (@lazy_group_sound p g' E) as [_ [Hdot Hsemi]].
  now split.
Qed.

Lemma match_mime_inside (p g : jsstring) (c : N) :
  match_mime p = Some g -> In c g -> In c p.
Proof.
  intros H Hin. apply match_mime_sound in H as [a [[b [-> _]] _]].
  rewrite in_app_iff. right. right. rewrite in_app_iff. now left.
Qed.

(** What a successful run of the encoder tells about the data URL. *)
Lemma fileToPart_inversion (w : World) (file : File) (part : Part) :
  result (GeminiService.fileToPart file) w = Return part ->
  exists url r m,
    FileReader_readAsDataURL w file = Fulfilled url
    /\ url = before_first_comma url ++ COMMA :: r
    /\ match_mime (before_first_comma url) = Some m /\ m <> []
    /\ part = {| inlineData := Some {| mimeType := Some m;
                                       data := Some (before_first_comma r) |};
                 text := None |}.
Proof.
  intros Hres.
  destruct (FileReader_readAsDataURL w file) as [url|reason] eqn:Hread.
  2:{ unfold result, GeminiService.fileToPart, bind, readAsDataURL in Hres.
      rewrite Hread in Hres. discriminate. }
  destruct (in_dec N.eq_dec COMMA url) as [Hcomma|Hno].
  2:{ destruct (@fileToPart_rejects w file url Hread (or_introl Hno)) as [msg Hmsg].
      congruence. }
  destruct (@first_comma_split url Hcomma) as [r [Hurl Hclean]].
  destruct (match_mime (before_first_comma url)) as [[|c m]|] eqn:Hm.
  - assert (Hbad : malformed_data_url url).
    { right. intros [m [Hmm Hne]]. apply match_mime_spec in Hmm. congruence. }
    destruct (@fileToPart_rejects w file url Hread Hbad) as [msg Hmsg]. congruence.
  - exists url, r, (c :: m). repeat split; try assumption; [discriminate|].
    assert (Hread' : FileReader_readAsDataURL w file
                     = Fulfilled (before_first_comma url ++ COMMA :: r))
      by now rewrite <- Hurl.
    rewrite (@fileToPart_decodes w file _ r (c :: m) Hread' Hclean Hm) in Hres
      by discriminate.
    now injection Hres as <-.
  - assert (Hbad : malformed_data_url url).
    { right. intros [m [Hmm Hne]]. apply match_mime_spec in Hmm. congruence. }
    destruct (@fileToPart_rejects w file url Hread Hbad) as [msg Hmsg]. congruence.
Qed.

(** X8. The encoder succeeds exactly when the file is read, the data URL
    has a comma and the MIME-type pattern matches the text before the
    first comma with a non-empty type. *)
Theorem encoder_succeeds_iff :
  forall (w : World) (file : File),
    (exists part, result (GeminiService.fileToPart file) w = Return part)
    <-> exists url, FileReader_readAsDataURL w file = Fulfilled url
                    /\ In COMMA url
                    /\ has_mime_pattern (before_first_comma url).
Proof.
  intros w file. split.
  - intros [part Hres].
    destruct (@fileToPart_inversion w file part Hres)
      as [url [r [m [Hread [Hurl [Hm [Hne _]]]]]]].
    exists url. split; [exact Hread|]. split.
    + rewrite Hurl, in_app_iff. right. now left.
    + exists m. split; [now apply match_mime_spec | exact Hne].
  - intros [url [Hread [Hcomma [m [Hm Hne]]]]].
    destruct (@fileToPart_accepts w file url m Hread Hcomma Hm Hne) as [d Hd].
    eexists. exact Hd.
Qed.

(** X9. Whatever the file, a part that the encoder returns has a MIME type
    that is not empty and holds no comma, semicolon or line terminator, a
    data string without a comma, and no text. *)
Theorem encoded_part_is_well_formed :
  forall (w : World) (file : File) (part : Part),
    result (GeminiService.fileToPart file) w = Return part ->
    exists m d,
      part = {| inlineData := Some {| mimeType := Some m; data := Some d |};
                text := None |}
      /\ m <> [] /\ ~ In COMMA m /\ ~ In SEMICOLON m /\ dot_all m
      /\ ~ In COMMA d.
Proof.
  intros w file part Hres.
  destruct (@fileToPart_inversion w file part Hres)
    as [url [r [m [_ [_ [Hm [Hne ->]]]]]]].
  exists m, (before_first_comma r).
  destruct (@match_mime_group (before_first_comma url) m Hm) as [Hsemi Hdot].
  repeat split; try assumption.
  - intros Hin. apply (@before_first_comma_clean url).
    exact (@match_mime_inside (before_first_comma url) m COMMA Hm Hin).
  - apply before_first_comma_clean.
Qed.

Lemma encoded_part_is_well_formed_witness :
  exists m d,
    Scenario.photo_part
    = {| inlineData := Some {| mimeType := Some m; data := Some d |}; text := None |}
    /\ m <> [] /\ ~ In COMMA m /\ ~ In SEMICOLON m /\ dot_all m /\ ~ In COMMA d.
Proof.
  apply (@encoded_part_is_well_formed Sample.host Sample.photo Scenario.photo_part).
  vm_compute. reflexivity.
Defined.

(** X10. The MIME type returned is the text between the first colon and
    the first semicolon: a parameter after the type, [;charset=...] as
    well as [;base64], is left out, and the payload is taken as it is,
    base64 or not. *)
Theorem mime_parameters_are_dropped :
  forall (w : World) (file : File) (mime params d : jsstring),
    FileReader_readAsDataURL w file
    = Fulfilled (lit "data:" ++ mime ++ SEMICOLON :: params ++ COMMA :: d) ->
    valid_mime mime = true -> ~ In COMMA params ->
    result (GeminiService.fileToPart file) w
    = Return {| inlineData := Some {| mimeType := Some mime;
                                      data := Some (before_first_comma d) |};
                text := None |}.
Proof.
  intros w file mime params d Hread Hmime Hparams.
  destruct (valid_mime_spec _ Hmime) as [Hne [Hcomma Hgroup]].
  assert (Hdata : lit "data:" = lit "data" ++ [COLON])
    by (vm_compute; reflexivity).
  assert (Hurl : lit "data:" ++ mime ++ SEMICOLON :: params ++ COMMA :: d
                 = (lit "data:" ++ mime ++ SEMICOLON :: params) ++ COMMA :: d).
  { rewrite <- !app_assoc. cbn [app]. reflexivity. }
  rewrite Hurl in Hread.
  apply (@fileToPart_decodes w file _ d mime Hread).
  - rewrite !in_app_iff. cbn [In]. intros [H|[H|[H|H]]]; [|tauto|discriminate H|tauto].
    revert H. vm_compute. intuition discriminate.
  - rewrite Hdata, <- app_assoc. rewrite match_mime_skip.
    + cbn [app match_mime]. rewrite N.eqb_refl.
      now rewrite lazy_group_complete.
    + vm_compute. intuition discriminate.
  - exact Hne.
Qed.

Lemma mime_parameters_are_dropped_witness :
  result (GeminiService.fileToPart Sample.photo)
         (Sample.host_reading
            (lit "data:" ++ lit "text/plain" ++ SEMICOLON :: lit "charset=utf-8"
             ++ COMMA :: lit "hello"))
  = Return {| inlineData := Some {| mimeType := Some (lit "text/plain");
                                    data := Some (before_first_comma (lit "hello")) |};
              text := None |}.
Proof.
  apply (@mime_parameters_are_dropped
           (Sample.host_reading
              (lit "data:" ++ lit "text/plain" ++ SEMICOLON :: lit "charset=utf-8"
               ++ COMMA :: lit "hello"))
           Sample.photo (lit "text/plain") (lit "charset=utf-8") (lit "hello")
           eq_refl).
  - vm_compute. reflexivity.
  - vm_compute. intuition discriminate.
Defined.

(** X11. When the file cannot be read, the encoder throws the reader's
    rejection, and every operation on this file ends in an error without
    sending a request. *)
Theorem unreadable_file_stops_the_operation :
  forall (w : World) (file : File) (reason : jsstring),
    FileReader_readAsDataURL w file = Rejected reason ->
    result (GeminiService.fileToPart file) w = Throw (Error ExternalError reason)
    /\ result (Localized.fileToPart file) w = Throw (Error ExternalError reason)
    /\ forall op, calling_operation file op ->
         no_network_call (trace op w)
         /\ exists e, result op w = Throw e
                      /\ (e = Error ExternalError reason
                          \/ kind e = MissingCredentialError
                          \/ kind e = ExternalError).
Proof.
  intros w file reason Hread.
  assert (HG : result (GeminiService.fileToPart file) w
               = Throw (Error ExternalError reason)).
  { unfold result, GeminiService.fileToPart, bind, readAsDataURL.
    rewrite Hread. reflexivity. }
  split; [exact HG|]. split; [now rewrite result_fileToPart_localized|].
  intros op Hop. exact (@operation_stops_at_encoder w file op _ Hop HG).
Qed.

Lemma unreadable_file_stops_the_operation_witness :
  result (GeminiService.fileToPart Sample.photo) Scenario.unreadable
  = Throw (Error ExternalError (lit "NotReadableError")).
Proof.
  exact (proj1 (@unreadable_file_stops_the_operation Scenario.unreadable
                  Sample.photo (lit "NotReadableError") eq_refl)).
Defined.

(** ** The operations, end to end *)

Lemma run_split (A : Type) (m : M A) (w : World) : m w = (trace m w, result m w).
Proof. unfold trace, result. now destruct (m w). Qed.

Lemma interpreter_trace_filter (f : Event -> bool)
    (response : GenerateContentResponse) (context : jsstring) (w : World) :
  (forall m, f (ConsoleLog m) = false) -> (forall m, f (ConsoleError m) = false) ->
  filter f (trace (GeminiService.handleApiResponse response context) w) = []
  /\ filter f (trace (Localized.handleApiResponse response context) w) = [].
Proof.
  intros Hlog Herr. unfold trace. interpret.
  destruct (truthy_opt (promptFeedback response ?> blockReason));
    [effects; cbn [filter]; rewrite !Herr; split; reflexivity|].
  destruct (defined _); [effects; cbn [filter]; rewrite !Hlog; split; reflexivity|].
  destruct (truthy_opt _ && negb _); effects; cbn [filter]; rewrite !Herr;
    split; reflexivity.
Qed.

(** From the request on. *)
Lemma request_and_after (w : World) (ai : GoogleGenAI) (request : GenerateContentParameters)
    (sending received tag : jsstring)
    (handle : GenerateContentResponse -> jsstring -> M jsstring) :
  trace (console_log sending ;;
         response <- generateContent ai request ;;
         console_log received ;;
         handle response tag) w
  = [ConsoleLog sending; GenerateContent ai request]
    ++ fst (after_request handle tag received w (models_generateContent w ai request))
  /\ result (console_log sending ;;
             response <- generateContent ai request ;;
             console_log received ;;
             handle response tag) w
     = snd (after_request handle tag received w (models_generateContent w ai request)).
Proof.
  run. destruct (models_generateContent w ai request) as [r|reason]; run;
    split; reflexivity.
Qed.

(** X12. Once the key is accepted by the SDK and the image encoded, each
    operation of [services/geminiService.ts] sends one request: the encoded
    image followed by its own prompt, to the fixed model, through a client
    built from the given key.  Its outcome is the interpreter's outcome on
    the answer under the operation's tag, or the rejection of the call. *)
Theorem operation_is_encoder_request_interpreter :
  forall (w : World) (key : option jsstring) (file : File) (instruction : jsstring)
         (hotspot : Hotspot) (part : Part),
    truthy_opt key = true ->
    GoogleGenAI_constructor w key = None ->
    result (GeminiService.fileToPart file) w = Return part ->
    GeminiService.generateEditedImage key file instruction hotspot w
    = run_from_key GeminiService.handleApiResponse
        (lit "Starting generative edit at:")
        (lit "Sending image and prompt to the model...")
        (lit "Received response from model.") (lit "edit")
        key file part (GeminiService.edit_prompt instruction hotspot) w
    /\ GeminiService.generateFilteredImage key file instruction w
       = run_from_key GeminiService.handleApiResponse
           (lit "Starting filter generation: " ++ instruction)
           (lit "Sending image and filter prompt to the model...")
           (lit "Received response from model for filter.") (lit "filter")
           key file part (GeminiService.filter_prompt instruction) w
    /\ GeminiService.generateAdjustedImage key file instruction w
       = run_from_key GeminiService.handleApiResponse
           (lit "Starting global adjustment generation: " ++ instruction)
           (lit "Sending image and adjustment prompt to the model...")
           (lit "Received response from model for adjustment.") (lit "adjustment")
           key file part (GeminiService.adjustment_prompt instruction) w.
Proof.
  intros w key file instruction hotspot part Hkey Hctor Hpart.
  unfold run_from_key, request_for. cbv zeta.
  split; [|split]; operation; rewrite Hkey; cbn [negb].
  all: rewrite run_split.
  all: rewrite trace_bind, trace_console_log, result_console_log.
  all: rewrite trace_bind, trace_new_GoogleGenAI, result_new_GoogleGenAI, Hctor.
  all: rewrite trace_bind, fileToPart_trace, Hpart.
  all: rewrite result_bind, result_console_log.
  all: rewrite result_bind, result_new_GoogleGenAI, Hctor.
  all: rewrite result_bind, Hpart.
  all: rewrite (proj1 (@request_and_after w _ _ _ _ _ GeminiService.handleApiResponse)),
         (proj2 (@request_and_after w _ _ _ _ _ GeminiService.handleApiResponse)).
  all: reflexivity.
Qed.

Lemma operation_is_encoder_request_interpreter_witness :
  GeminiService.generateFilteredImage (Some (lit "key")) Sample.photo (lit "sepia")
    Sample.host
  = run_from_key GeminiService.handleApiResponse
      (lit "Starting filter generation: " ++ lit "sepia")
      (lit "Sending image and filter prompt to the model...")
      (lit "Received response from model for filter.") (lit "filter")
      (Some (lit "key")) Sample.photo Scenario.photo_part
      (GeminiService.filter_prompt (lit "sepia")) Sample.host.
Proof.
  refine (proj1 (proj2 (@operation_is_encoder_request_interpreter Sample.host
                          (Some (lit "key")) Sample.photo (lit "sepia")
                          {| hotspot_x := 0; hotspot_y := 0 |} Scenario.photo_part
                          eq_refl eq_refl _))).
  vm_compute. reflexivity.
Defined.

Example filter_run_returns_image :
  result (GeminiService.generateFilteredImage (Some (lit "key")) Sample.photo
            (lit "sepia")) Sample.host
  = Return (lit "data:image/png;base64,iVBORw0KGgo=").
Proof. vm_compute. reflexivity. Qed.

(** X13. The localized operations are composed in the same way, with the
    key taken from [process.env.API_KEY], whatever it is. *)
Theorem localized_operation_is_encoder_request_interpreter :
  forall (w : World) (file : File) (instruction : jsstring) (hotspot : Hotspot)
         (part : Part),
    GoogleGenAI_constructor w (process_env_API_KEY w) = None ->
    result (GeminiService.fileToPart file) w = Return part ->
    Localized.generateEditedImage file instruction hotspot w
    = run_from_key Localized.handleApiResponse
        (lit "Iniciando edição generativa em:")
        (lit "Enviando imagem e prompt para o modelo...")
        (lit "Resposta recebida do modelo.") (lit "edit")
        (process_env_API_KEY w) file part
        (Localized.edit_prompt instruction hotspot) w
    /\ Localized.generateFilteredImage file instruction w
       = run_from_key Localized.handleApiResponse
           (lit "Iniciando geração de filtro: " ++ instruction)
           (lit "Enviando imagem e prompt de filtro para o modelo...")
           (lit "Resposta do modelo para filtro recebida.") (lit "filter")
           (process_env_API_KEY w) file part
           (Localized.filter_prompt instruction) w
    /\ Localized.generateAdjustedImage file instruction w
       = run_from_key Localized.handleApiResponse
           (lit "Iniciando geração de ajuste global: " ++ instruction)
           (lit "Enviando imagem e prompt de ajuste para o modelo...")
           (lit "Resposta do modelo para ajuste recebida.") (lit "adjustment")
           (process_env_API_KEY w) file part
           (Localized.adjustment_prompt instruction) w.
Proof.
  intros w file instruction hotspot part Hctor Hpart.
  unfold run_from_key, request_for. cbv zeta.
  split; [|split]; operation.
  all: rewrite run_split.
  all: rewrite trace_bind, trace_console_log, result_console_log.
  all: rewrite trace_bind, trace_env, result_env.
  all: rewrite trace_bind, trace_new_GoogleGenAI, result_new_GoogleGenAI, Hctor.
  all: rewrite trace_bind, trace_fileToPart_localized,
         result_fileToPart_localized, Hpart.
  all: rewrite result_bind, result_console_log.
  all: rewrite result_bind, result_env.
  all: rewrite result_bind, result_new_GoogleGenAI, Hctor.
  all: rewrite result_bind, result_fileToPart_localized, Hpart.
  all: rewrite (proj1 (@request_and_after w _ _ _ _ _ Localized.handleApiResponse)),
         (proj2 (@request_and_after w _ _ _ _ _ Localized.handleApiResponse)).
  all: reflexivity.
Qed.

Lemma localized_operation_is_encoder_request_interpreter_witness :
  Localized.generateAdjustedImage Sample.photo (lit "warmer") Sample.host
  = run_from_key Localized.handleApiResponse
      (lit "Iniciando geração de ajuste global: " ++ lit "warmer")
      (lit "Enviando imagem e prompt de ajuste para o modelo...")
      (lit "Resposta do modelo para ajuste recebida.") (lit "adjustment")
      (process_env_API_KEY Sample.host) Sample.photo Scenario.photo_part
      (Localized.adjustment_prompt (lit "warmer")) Sample.host.
Proof.
  refine (proj2 (proj2 (@localized_operation_is_encoder_request_interpreter
                          Sample.host Sample.photo (lit "warmer")
                          {| hotspot_x := 0; hotspot_y := 0 |} Scenario.photo_part
                          eq_refl _))).
  vm_compute. reflexivity.
Defined.

(** X14. When the network call is rejected, the operation throws that
    rejection: the request is the last thing it does, the interpreter does
    not run and nothing is written to [console.error]. *)
Theorem network_failure_is_thrown_on :
  forall (w : World) (key : option jsstring) (file : File) (instruction : jsstring)
         (part : Part) (reason : jsstring),
    truthy_opt key = true ->
    GoogleGenAI_constructor w key = None ->
    result (GeminiService.fileToPart file) w = Return part ->
    models_generateContent w {| apiKey := key |}
      (request_for part (GeminiService.filter_prompt instruction))
    = Rejected reason ->
    GeminiService.generateFilteredImage key file instruction w
    = ([ConsoleLog (lit "Starting filter generation: " ++ instruction);
        NewGoogleGenAI key; ReadAsDataURL file;
        ConsoleLog (lit "Sending image and filter prompt to the model...");
        GenerateContent {| apiKey := key |}
          (request_for part (GeminiService.filter_prompt instruction))],
       Throw (Error ExternalError reason)).
Proof.
  intros w key file instruction part reason Hkey Hctor Hpart Hnet.
  unfold request_for in *. operation. rewrite Hkey. cbn [negb].
  rewrite run_split.
  rewrite trace_bind, trace_console_log, result_console_log.
  rewrite trace_bind, trace_new_GoogleGenAI, result_new_GoogleGenAI, Hctor.
  rewrite trace_bind, fileToPart_trace, Hpart.
  rewrite result_bind, result_console_log.
  rewrite result_bind, result_new_GoogleGenAI, Hctor.
  rewrite result_bind, Hpart.
  rewrite (proj1 (@request_and_after w _ _ _ _ _ GeminiService.handleApiResponse)),
    (proj2 (@request_and_after w _ _ _ _ _ GeminiService.handleApiResponse)).
  rewrite Hnet. reflexivity.
Qed.

Lemma network_failure_is_thrown_on_witness :
  result (GeminiService.generateFilteredImage (Some (lit "key")) Sample.photo
            (lit "sepia")) Scenario.offline
  = Throw (Error ExternalError (lit "Failed to fetch")).
Proof.
  unfold result.
  rewrite (@network_failure_is_thrown_on Scenario.offline (Some (lit "key"))
             Sample.photo (lit "sepia") Scenario.photo_part (lit "Failed to fetch")
             eq_refl eq_refl).
  - reflexivity.
  - vm_compute. reflexivity.
  - reflexivity.
Defined.

(** X15. No operation repeats a step: in every run the SDK client is
    built at most once, the file is read at most once and at most one
    request is sent; a request is sent only after the client has been built
    and the file read. *)
Theorem operations_never_retry :
  forall (w : World) (file : File) (op : M jsstring),
    calling_operation file op ->
    (count isConstruction (trace op w) <= 1)%nat
    /\ (count isFileRead (trace op w) <= 1)%nat
    /\ (count isNetworkCall (trace op w) <= 1)%nat
    /\ (count isNetworkCall (trace op w) = 1%nat ->
        count isConstruction (trace op w) = 1%nat
        /\ count isFileRead (trace op w) = 1%nat).
Proof.
  intros w file op Hop. unfold count.
  assert (HG : forall f r c,
             (forall m, f (ConsoleLog m) = false) ->
             (forall m, f (ConsoleError m) = false) ->
             filter f (trace (GeminiService.handleApiResponse r c) w) = []).
  { intros f r c Hl He. exact (proj1 (@interpreter_trace_filter f r c w Hl He)). }
  assert (HL : forall f r c,
             (forall m, f (ConsoleLog m) = false) ->
             (forall m, f (ConsoleError m) = false) ->
             filter f (trace (Localized.handleApiResponse r c) w) = []).
  { intros f r c Hl He. exact (proj2 (@interpreter_trace_filter f r c w Hl He)). }
  assert (Hshape :
            trace op w = []
            \/ (exists a k, trace op w = [ConsoleLog a; NewGoogleGenAI k])
            \/ (exists a k, trace op w
                            = [ConsoleLog a; NewGoogleGenAI k; ReadAsDataURL file])
            \/ (exists a k b ai req q,
                   trace op w
                   = [ConsoleLog a; NewGoogleGenAI k; ReadAsDataURL file;
                      ConsoleLog b; GenerateContent ai req] ++ q
                   /\ filter isConstruction q = []
                   /\ filter isFileRead q = []
                   /\ filter isNetworkCall q = [])).
  { pattern (trace op w).
    match goal with |- ?P _ => set (shape := P) end.
    destruct Hop; operation;
      try (match goal with
           | |- context [truthy_opt ?k] => destruct (truthy_opt k)
           end; cbn [negb]; [| subst shape; left; reflexivity]);
      run;
      match goal with
      | |- context [GoogleGenAI_constructor w ?k] =>
        destruct (GoogleGenAI_constructor w k)
      end;
      run;
      try (subst shape; right; left; do 2 eexists; cbn [app]; reflexivity);
      destruct (result (GeminiService.fileToPart file) w); run;
      try (subst shape; right; right; left; do 2 eexists; cbn [app]; reflexivity);
      match goal with
      | |- context [models_generateContent w ?ai ?req] =>
        destruct (models_generateContent w ai req)
      end;
      run; subst shape; cbv beta; right; right; right;
      do 6 eexists; (split; [cbn [app]; reflexivity|]);
      cbn [filter isConstruction isFileRead isNetworkCall];
      try (repeat split; reflexivity);
      match goal with
      | |- context [GeminiService.handleApiResponse ?r ?c] =>
        rewrite (HG isConstruction r c (fun _ => eq_refl) (fun _ => eq_refl)),
          (HG isFileRead r c (fun _ => eq_refl) (fun _ => eq_refl)),
          (HG isNetworkCall r c (fun _ => eq_refl) (fun _ => eq_refl))
      | |- context [Localized.handleApiResponse ?r ?c] =>
        rewrite (HL isConstruction r c (fun _ => eq_refl) (fun _ => eq_refl)),
          (HL isFileRead r c (fun _ => eq_refl) (fun _ => eq_refl)),
          (HL isNetworkCall r c (fun _ => eq_refl) (fun _ => eq_refl))
      end;
      repeat split; reflexivity. }
  destruct Hshape as [-> | [[a [k ->]] | [[a [k ->]] | [a [k [b [ai [req [q [-> [H1 [H2 H3]]]]]]]]]]]].
  - cbn [filter List.length]. repeat split; lia.
  - cbn [filter isConstruction isFileRead isNetworkCall List.length].
    repeat split; lia.
  - cbn [filter isConstruction isFileRead isNetworkCall List.length].
    repeat split; lia.
  - rewrite !filter_app, H1, H2, H3.
    cbn [app filter isConstruction isFileRead isNetworkCall List.length].
    repeat split; lia.
Qed.

Lemma operations_never_retry_witness :
  (count isNetworkCall
     (trace (GeminiService.generateFilteredImage (Some (lit "key")) Sample.photo
               (lit "sepia")) Sample.host) <= 1)%nat.
Proof.
  apply (@operations_never_retry Sample.host Sample.photo
           (GeminiService.generateFilteredImage (Some (lit "key")) Sample.photo
              (lit "sepia"))).
  apply call_filter.
Defined.

(** X16. When the SDK constructor refuses a key that passed the guard, the
    operation throws the constructor's error right after its first console
    line: the file is not read and nothing is sent. *)
Theorem sdk_refusal_stops_before_reading :
  forall (w : World) (key : option jsstring) (file : File) (instruction msg : jsstring)
         (hotspot : Hotspot),
    truthy_opt key = true ->
    GoogleGenAI_constructor w key = Some msg ->
    GeminiService.generateEditedImage key file instruction hotspot w
    = ([ConsoleLog (lit "Starting generative edit at:"); NewGoogleGenAI key],
       Throw (Error ExternalError msg))
    /\ GeminiService.generateFilteredImage key file instruction w
       = ([ConsoleLog (lit "Starting filter generation: " ++ instruction);
           NewGoogleGenAI key],
          Throw (Error ExternalError msg))
    /\ GeminiService.generateAdjustedImage key file instruction w
       = ([ConsoleLog (lit "Starting global adjustment generation: " ++ instruction);
           NewGoogleGenAI key],
          Throw (Error ExternalError msg)).
Proof.
  intros w key file instruction msg hotspot Hkey Hctor.
  split; [|split]; operation; rewrite Hkey; cbn [negb].
  all: rewrite run_split.
  all: rewrite trace_bind, trace_console_log, result_console_log.
  all: rewrite trace_bind, trace_new_GoogleGenAI, result_new_GoogleGenAI, Hctor.
  all: rewrite result_bind, result_console_log.
  all: rewrite result_bind, result_new_GoogleGenAI, Hctor.
  all: reflexivity.
Qed.

Lemma sdk_refusal_stops_before_reading_witness :
  GeminiService.generateEditedImage (Some (lit "key")) Sample.photo (lit "brighter")
    {| hotspot_x := 3; hotspot_y := 4 |} Scenario.refusing
  = ([ConsoleLog (lit "Starting generative edit at:"); NewGoogleGenAI (Some (lit "key"))],
     Throw (Error ExternalError (lit "invalid options"))).
Proof.
  exact (proj1 (@sdk_refusal_stops_before_reading Scenario.refusing
                  (Some (lit "key")) Sample.photo (lit "brighter")
                  (lit "invalid options") {| hotspot_x := 3; hotspot_y := 4 |}
                  eq_refl eq_refl)).
Defined.

(** X24. The localized operations have no guard: when the SDK constructor
    refuses [process.env.API_KEY], each of them throws the constructor's
    error right after its first console line, before the file is read. *)
Theorem localized_sdk_refusal_stops_before_reading :
  forall (w : World) (file : File) (instruction msg : jsstring) (hotspot : Hotspot),
    GoogleGenAI_constructor w (process_env_API_KEY w) = Some msg ->
    Localized.generateEditedImage file instruction hotspot w
    = ([ConsoleLog (lit "Iniciando edição generativa em:");
        NewGoogleGenAI (process_env_API_KEY w)],
       Throw (Error ExternalError msg))
    /\ Localized.generateFilteredImage file instruction w
       = ([ConsoleLog (lit "Iniciando geração de filtro: " ++ instruction);
           NewGoogleGenAI (process_env_API_KEY w)],
          Throw (Error ExternalError msg))
    /\ Localized.generateAdjustedImage file instruction w
       = ([ConsoleLog (lit "Iniciando geração de ajuste global: " ++ instruction);
           NewGoogleGenAI (process_env_API_KEY w)],
          Throw (Error ExternalError msg)).
Proof.
  intros w file instruction msg hotspot Hctor.
  split; [|split]; operation.
  all: rewrite run_split.
  all: rewrite trace_bind, trace_console_log, result_console_log.
  all: rewrite trace_bind, trace_env, result_env.
  all: rewrite trace_bind, trace_new_GoogleGenAI, result_new_GoogleGenAI, Hctor.
  all: rewrite result_bind, result_console_log.
  all: rewrite result_bind, result_env.
  all: rewrite result_bind, result_new_GoogleGenAI, Hctor.
  all: reflexivity.
Qed.

Lemma localized_sdk_refusal_stops_before_reading_witness :
  Localized.generateFilteredImage Sample.photo (lit "sepia") Scenario.refusing
  = ([ConsoleLog (lit "Iniciando geração de filtro: " ++ lit "sepia");
      NewGoogleGenAI (process_env_API_KEY Scenario.refusing)],
     Throw (Error ExternalError (lit "invalid options"))).
Proof.
  exact (proj1 (proj2 (@localized_sdk_refusal_stops_before_reading
                         Scenario.refusing Sample.photo (lit "sepia")
                         (lit "invalid options")
                         {| hotspot_x := 0; hotspot_y := 0 |} eq_refl))).
Defined.

(** ** [trim] *)

Lemma trimStart_head (s t : jsstring) (c : N) :
  trimStart s = c :: t -> isTrimmable c = false.
Proof.
  induction s as [|a s IH]; simpl; [discriminate|].
  destruct (isTrimmable a) eqn:Ha; [exact IH|].
  intros [= <- _]. exact Ha.
Qed.

Lemma trimStart_fixed (c : N) (t : jsstring) :
  isTrimmable c = false -> trimStart (c :: t) = c :: t.
Proof. intros H. simpl. now rewrite H. Qed.

Lemma trimStart_suffix (s : jsstring) : exists p, s = p ++ trimStart s.
Proof.
  induction s as [|a s [p IH]]; simpl; [now exists []|].
  destruct (isTrimmable a); [|now exists []].
  exists (a :: p). simpl. now rewrite <- IH.
Qed.

Lemma trimStart_blank (s : jsstring) : trimStart s = [] <-> blank s.
Proof.
  unfold blank. induction s as [|a s IH]; simpl; [split; [constructor | reflexivity]|].
  destruct (isTrimmable a) eqn:Ha.
  - rewrite IH. split; [now constructor | now inversion 1].
  - split; [discriminate|]. inversion 1. congruence.
Qed.

Lemma trim_blank (s : jsstring) : trim s = [] <-> blank s.
Proof.
  unfold trim. split.
  - intros H. apply (f_equal (@rev N)) in H. rewrite rev_involutive in H.
    simpl in H. apply trimStart_blank in H. unfold blank in H.
    apply Forall_rev in H. rewrite rev_involutive in H.
    destruct (trimStart s) as [|c t] eqn:E; [now apply trimStart_blank|].
    apply trimStart_head in E. inversion H. congruence.
  - intros H. apply trimStart_blank in H. rewrite H. reflexivity.
Qed.

Lemma trim_trimmed (s : jsstring) : trimmed (trim s).
Proof.
  unfold trim.
  destruct (trimStart (rev (trimStart s))) as [|c v] eqn:Ev; [exact I|].
  pose proof (@trimStart_head _ _ _ Ev) as Hc.
  destruct (trimStart_suffix (rev (trimStart s))) as [p Hp]. rewrite Ev in Hp.
  apply (f_equal (@rev N)) in Hp. rewrite rev_involutive, rev_app_distr in Hp.
  simpl rev. simpl rev in Hp.
  destruct (rev v ++ [c]) as [|a t] eqn:El.
  { destruct (rev v); discriminate. }
  unfold trimmed. split.
  - rewrite <- app_comm_cons in Hp. exact (@trimStart_head _ _ _ Hp).
  - rewrite <- El. rewrite last_last. exact Hc.
Qed.

Lemma trimmed_trim (s : jsstring) : trimmed s -> trim s = s.
Proof.
  destruct s as [|c t]; [reflexivity|]. intros [Hhead Hlast].
  unfold trim. rewrite (@trimStart_fixed c t Hhead).
  destruct (@exists_last N (c :: t)) as [s' [x Hs]]; [discriminate|].
  rewrite Hs in *. rewrite last_last in Hlast.
  rewrite rev_app_distr. change (rev [x] ++ rev s') with (x :: rev s').
  rewrite (@trimStart_fixed x (rev s') Hlast). simpl. now rewrite rev_involutive.
Qed.

(** ** The key dialog *)

Lemma handleSave_saved (apiKey k : jsstring) :
  In k (ApiKeyModal.handleSave apiKey) -> k = trim apiKey /\ k <> [].
Proof.
  unfold ApiKeyModal.handleSave. destruct (truthy (trim apiKey)) eqn:E; [|intros []].
  intros [<-|[]]. split; [reflexivity|]. intros H. rewrite H in E. discriminate.
Qed.

Lemma step_saved (apiKey k : jsstring) (a : ApiKeyModal.Action) :
  In k (snd (ApiKeyModal.step apiKey a)) -> k = trim apiKey /\ k <> [].
Proof.
  destruct a; simpl; [intros []|].
  destruct (ApiKeyModal.disabled apiKey); [intros [] | apply handleSave_saved].
Qed.

Lemma typed_text_step (apiKey : jsstring) (a : ApiKeyModal.Action)
    (rest : list ApiKeyModal.Action) :
  typed_text apiKey (a :: rest) = typed_text (fst (ApiKeyModal.step apiKey a)) rest.
Proof. destruct a; reflexivity. Qed.

Lemma click_saves (apiKey : jsstring) :
  trim apiKey <> [] ->
  snd (ApiKeyModal.step apiKey ApiKeyModal.Click) = [trim apiKey].
Proof.
  intros H. unfold ApiKeyModal.step, ApiKeyModal.disabled, ApiKeyModal.handleSave.
  rewrite (truthy_nonempty H). reflexivity.
Qed.

Lemma session_saved (actions : list ApiKeyModal.Action) :
  forall (apiKey k : jsstring),
    In k (snd (ApiKeyModal.session apiKey actions)) <->
    exists before after,
      actions = before ++ ApiKeyModal.Click :: after
      /\ k = trim (typed_text apiKey before) /\ k <> [].
Proof.
  induction actions as [|a rest IH]; intros apiKey k.
  { split; [intros [] | intros [[|b before] [after [H _]]]; discriminate H]. }
  cbn [ApiKeyModal.session].
  destruct (ApiKeyModal.step apiKey a) as [apiKey' saved] eqn:Es.
  specialize (IH apiKey' k).
  destruct (ApiKeyModal.session apiKey' rest) as [final saved'].
  cbn [snd] in *. rewrite in_app_iff. split.
  - intros [Hin|Hin].
    + assert (Hk : k = trim apiKey /\ k <> []).
      { apply (@step_saved apiKey k a). now rewrite Es. }
      destruct a as [value|]; [injection Es as _ <-; destruct Hin|].
      exists [], rest. split; [reflexivity | exact Hk].
    + apply IH in Hin as [before [after [-> [Hk Hne]]]].
      exists (a :: before), after. split; [reflexivity|]. split; [|exact Hne].
      now rewrite typed_text_step, Es.
  - intros [[|b before] [after [Hact [Hk Hne]]]].
    + injection Hact as -> ->. left. cbn [typed_text] in Hk.
      assert (Hs : saved = [trim apiKey]).
      { change saved with (snd (apiKey', saved)). rewrite <- Es.
        apply click_saves. now rewrite <- Hk. }
      rewrite Hs, Hk. now left.
    + injection Hact as <- ->. right. apply IH.
      exists before, after. split; [reflexivity|]. split; [|exact Hne].
      now rewrite Hk, typed_text_step, Es.
Qed.

(** X17. Whatever the user types and however often the button is clicked,
    the keys handed to [onSave] are exactly the trimmed texts that the
    input holds at the clicks where that text is not blank.  So a saved
    key is not empty, neither starts nor ends with white space, and
    trimming it again changes nothing. *)
Theorem saved_key_is_trimmed :
  forall (apiKey : jsstring) (actions : list ApiKeyModal.Action) (k : jsstring),
    (In k (snd (ApiKeyModal.session apiKey actions)) <->
     exists before after,
       actions = before ++ ApiKeyModal.Click :: after
       /\ k = trim (typed_text apiKey before) /\ k <> [])
    /\ (In k (snd (ApiKeyModal.session apiKey actions)) ->
        trimmed k /\ trim k = k).
Proof.
  intros apiKey actions k. split; [apply session_saved|].
  intros Hin. apply session_saved in Hin as [before [after [_ [-> _]]]].
  split; [apply trim_trimmed | apply trimmed_trim, trim_trimmed].
Qed.

Lemma saved_key_is_trimmed_witness :
  In (lit "AIza-key")
     (snd (ApiKeyModal.session ApiKeyModal.initial
             [ApiKeyModal.Click; ApiKeyModal.Change (lit "  AIza-key  ");
              ApiKeyModal.Click]))
  /\ exists before after,
       [ApiKeyModal.Click; ApiKeyModal.Change (lit "  AIza-key  ");
        ApiKeyModal.Click]
       = before ++ ApiKeyModal.Click :: after
       /\ lit "AIza-key" = trim (typed_text ApiKeyModal.initial before)
       /\ lit "AIza-key" <> [].
Proof.
  assert (Hin : In (lit "AIza-key")
                   (snd (ApiKeyModal.session ApiKeyModal.initial
                           [ApiKeyModal.Click;
                            ApiKeyModal.Change (lit "  AIza-key  ");
                            ApiKeyModal.Click]))).
  { vm_compute. left. reflexivity. }
  split; [exact Hin|].
  exact (proj1 (proj1 (@saved_key_is_trimmed ApiKeyModal.initial
                         [ApiKeyModal.Click;
                          ApiKeyModal.Change (lit "  AIza-key  ");
                          ApiKeyModal.Click]
                         (lit "AIza-key"))) Hin).
Defined.

(** The first click of that session, on the empty input, saves nothing. *)
Example click_on_empty_input :
  snd (ApiKeyModal.session ApiKeyModal.initial
         [ApiKeyModal.Click; ApiKeyModal.Change (lit "  AIza-key  ");
          ApiKeyModal.Click])
  = [lit "AIza-key"].
Proof. vm_compute. reflexivity. Qed.

(** X18. Saving does nothing exactly when the input is empty or white
    space only, and those are exactly the inputs for which the button is
    disabled; for any other input one key is saved, the trimmed input. *)
Theorem save_does_nothing_iff_blank :
  forall (apiKey : jsstring),
    (ApiKeyModal.handleSave apiKey = [] <-> blank apiKey)
    /\ (ApiKeyModal.disabled apiKey = true <-> blank apiKey)
    /\ (~ blank apiKey -> ApiKeyModal.handleSave apiKey = [trim apiKey]).
Proof.
  intros apiKey. unfold ApiKeyModal.handleSave, ApiKeyModal.disabled.
  rewrite <- trim_blank.
  destruct (trim apiKey) as [|c t]; simpl.
  - repeat split; try reflexivity. intros H. now contradiction H.
  - repeat split; try discriminate; reflexivity.
Qed.

(** X19. A key saved by the dialog passes the guard of every operation:
    the run does not stop with the missing-credential error but goes on to
    build the SDK client, with that very key. *)
Theorem saved_key_passes_the_guard :
  forall (typed k : jsstring) (file : File) (instruction : jsstring)
         (hotspot : Hotspot) (w : World),
    In k (ApiKeyModal.handleSave typed) ->
    (exists t, trace (GeminiService.generateEditedImage (Some k) file instruction
                        hotspot) w
               = ConsoleLog (lit "Starting generative edit at:")
                 :: NewGoogleGenAI (Some k) :: t)
    /\ (exists t, trace (GeminiService.generateFilteredImage (Some k) file
                           instruction) w
                  = ConsoleLog (lit "Starting filter generation: " ++ instruction)
                    :: NewGoogleGenAI (Some k) :: t)
    /\ (exists t, trace (GeminiService.generateAdjustedImage (Some k) file
                           instruction) w
                  = ConsoleLog (lit "Starting global adjustment generation: "
                                ++ instruction)
                    :: NewGoogleGenAI (Some k) :: t).
Proof.
  intros typed k file instruction hotspot w Hin.
  destruct (@handleSave_saved typed k Hin) as [_ Hne].
  assert (Hkey : truthy_opt (Some k) = true) by now apply truthy_nonempty.
  split; [|split]; operation; rewrite Hkey; cbn [negb].
  all: rewrite trace_bind, trace_console_log, result_console_log.
  all: rewrite trace_bind, trace_new_GoogleGenAI.
  all: eexists; reflexivity.
Qed.

Lemma saved_key_passes_the_guard_witness :
  exists t,
    trace (GeminiService.generateFilteredImage (Some (trim (lit " key "))) Sample.photo
             (lit "sepia")) Sample.host
    = ConsoleLog (lit "Starting filter generation: " ++ lit "sepia")
      :: NewGoogleGenAI (Some (trim (lit " key "))) :: t.
Proof.
  refine (proj1 (proj2 (@saved_key_passes_the_guard (lit " key ") (trim (lit " key "))
                          Sample.photo (lit "sepia")
                          {| hotspot_x := 0; hotspot_y := 0 |} Sample.host _))).
  vm_compute. left. reflexivity.
Defined.

(** ** The bootstrap *)

(** X20. When [window.process] is missing or has an [env], the script
    leaves in [process.env.API_KEY] the key stored for the session if that
    is not empty, and otherwise what was there before (nothing on a fresh
    page).  It never puts the empty string there. *)
Theorem bootstrap_installs_stored_key :
  forall (page : Index.Page),
    Index.window_process page = None
    \/ (exists p e, Index.window_process page = Some p /\ Index.env p = Some e) ->
    let stored := Index.sessionStorage_gemini_api_key page in
    let previous := match Index.window_process page with
                    | Some p => Index.env_API_KEY p
                    | None => None
                    end in
    Index.env_API_KEY (fst (Index.main page))
    = (if truthy_opt stored then stored else previous)
    /\ (previous <> Some [] -> Index.env_API_KEY (fst (Index.main page)) <> Some []).
Proof.
  intros [wp stored root] Hprocess. cbn [Index.window_process
    Index.sessionStorage_gemini_api_key] in *. cbv zeta.
  assert (Hkey : Index.env_API_KEY
                   (fst (Index.main
                           {| Index.window_process := wp;
                              Index.sessionStorage_gemini_api_key := stored;
                              Index.root_element := root |}))
                 = if truthy_opt stored then stored
                   else match wp with
                        | Some p => Index.env_API_KEY p
                        | None => None
                        end).
  { unfold Index.main. cbn [Index.window_process Index.sessionStorage_gemini_api_key
      Index.root_element].
    destruct Hprocess as [-> | [p [e [-> He]]]].
    - cbn [Index.env]. destruct (truthy_opt stored); destruct root; reflexivity.
    - rewrite He. destruct (truthy_opt stored); destruct root; reflexivity. }
  split; [exact Hkey|]. rewrite Hkey. intros Hprev.
  destruct stored as [[|c s]|]; cbn [truthy_opt truthy]; try exact Hprev.
  discriminate.
Qed.

Lemma bootstrap_installs_stored_key_witness :
  Index.env_API_KEY (fst (Index.main (Scenario.fresh_page (Some (lit "key")) false)))
  = (if truthy_opt (Some (lit "key")) then Some (lit "key") else None).
Proof.
  refine (proj1 (@bootstrap_installs_stored_key
                   (Scenario.fresh_page (Some (lit "key")) false) _)).
  left. reflexivity.
Defined.

(** X21. The script renders the application exactly when the document has
    the root element and the key could be assigned; without the root
    element it throws its mount error instead.  What it leaves in
    [window.process] is the same with and without the root element: the key
    is installed before the mount is attempted. *)
Theorem bootstrap_mounts_iff_root :
  forall (wp : option Index.Process) (stored : option jsstring) (root : bool),
    let page := {| Index.window_process := wp;
                   Index.sessionStorage_gemini_api_key := stored;
                   Index.root_element := root |} in
    let unassignable := truthy_opt stored = true
                        /\ exists p, wp = Some p /\ Index.env p = None in
    (snd (Index.main page) = Index.Rendered <-> root = true /\ ~ unassignable)
    /\ (snd (Index.main page)
        = Index.Thrown (lit "Could not find root element to mount to")
        <-> root = false /\ ~ unassignable)
    /\ fst (Index.main page)
       = fst (Index.main {| Index.window_process := wp;
                            Index.sessionStorage_gemini_api_key := stored;
                            Index.root_element := negb root |}).
Proof.
  intros wp stored root page unassignable. subst page unassignable.
  unfold Index.main.
  cbn [Index.window_process Index.sessionStorage_gemini_api_key Index.root_element].
  destruct wp as [[[e|]]|]; cbn [Index.env];
    destruct (truthy_opt stored); destruct root; cbn [negb fst snd];
    (split; [|split]; [split | split | reflexivity]);
    try (intros H; discriminate H);
    try (intros [H _]; discriminate H);
    try (intros _; split; [reflexivity|];
         intros [Ht [p [Hp He]]];
         first [discriminate Ht | discriminate Hp
               | injection Hp as <-; discriminate He]);
    try (intros _; reflexivity);
    try (intros [_ H]; exfalso; apply H; split; [reflexivity|];
         eexists; split; reflexivity).
Qed.

(** X22. After the bootstrap of a fresh page, a localized operation builds
    the SDK client with the key stored for the session; when none is
    stored, or an empty one, it builds the client with no key at all: the
    localized operations have no guard of their own. *)
Theorem bootstrap_key_reaches_the_sdk :
  forall (w : World) (page : Index.Page) (file : File) (instruction : jsstring)
         (hotspot : Hotspot),
    Index.window_process page = None ->
    process_env_API_KEY w = Index.env_API_KEY (fst (Index.main page)) ->
    let stored := Index.sessionStorage_gemini_api_key page in
    let key := if truthy_opt stored then stored else None in
    (exists t, trace (Localized.generateEditedImage file instruction hotspot) w
               = ConsoleLog (lit "Iniciando edição generativa em:")
                 :: NewGoogleGenAI key :: t)
    /\ (exists t, trace (Localized.generateFilteredImage file instruction) w
                  = ConsoleLog (lit "Iniciando geração de filtro: " ++ instruction)
                    :: NewGoogleGenAI key :: t)
    /\ (exists t, trace (Localized.generateAdjustedImage file instruction) w
                  = ConsoleLog (lit "Iniciando geração de ajuste global: "
                                ++ instruction)
                    :: NewGoogleGenAI key :: t).
Proof.
  intros w [wp stored root] file instruction hotspot Hfresh Henv.
  cbn [Index.window_process Index.sessionStorage_gemini_api_key] in *. subst wp.
  cbv zeta.
  assert (Hkey : process_env_API_KEY w = if truthy_opt stored then stored else None).
  { rewrite Henv. unfold Index.main.
    cbn [Index.window_process Index.sessionStorage_gemini_api_key
         Index.root_element Index.env].
    destruct (truthy_opt stored); destruct root; reflexivity. }
  split; [|split]; operation.
  all: rewrite trace_bind, trace_console_log, result_console_log.
  all: rewrite trace_bind, trace_env, result_env.
  all: rewrite trace_bind, trace_new_GoogleGenAI, Hkey.
  all: eexists; reflexivity.
Qed.

Lemma bootstrap_key_reaches_the_sdk_witness :
  exists t,
    trace (Localized.generateFilteredImage Sample.photo (lit "sepia"))
          (Scenario.after_bootstrap (Scenario.fresh_page None true))
    = ConsoleLog (lit "Iniciando geração de filtro: " ++ lit "sepia")
      :: NewGoogleGenAI (if truthy_opt None then None else None) :: t.
Proof.
  exact (proj1 (proj2 (@bootstrap_key_reaches_the_sdk
                         (Scenario.after_bootstrap (Scenario.fresh_page None true))
                         (Scenario.fresh_page None true) Sample.photo (lit "sepia")
                         {| hotspot_x := 0; hotspot_y := 0 |} eq_refl eq_refl))).
Defined.

(** Without a stored key the localized operation is stopped by the SDK of
    the sample host, not by the service. *)
Example no_stored_key_is_left_to_the_sdk :
  Localized.generateFilteredImage Sample.photo (lit "sepia")
    (Scenario.after_bootstrap (Scenario.fresh_page None true))
  = ([ConsoleLog (lit "Iniciando geração de filtro: " ++ lit "sepia");
      NewGoogleGenAI None],
     Throw (Error ExternalError
              (lit "An API Key must be set when running in a browser"))).
Proof. vm_compute. reflexivity. Qed.

(** ** The tags of the operations *)



